(** * Field extraction scripts: a shallow embedding and its properties

    The development embeds two scripts of the repository,

    - [scripts/extract_fields.py]: locating a Go [types.go] file and reading
      the fields of a struct out of its text, and
    - [scripts/extract_openapi_fields.py]: walking an OpenAPI schema and
      emitting one record per property,

    and proves what their field records look like.

    Modelling choices:
    - Python text is a [string]; a character is an [ascii] read as the code
      point of the same number (Latin-1), with the whitespace and word
      classes Python gives these code points.
    - A Python exception is the [Raise] outcome of a small error monad; a
      loop is [for_each], which threads the loop variables and stops at the
      first exception.
    - The two regular expressions are terms of a small pattern language with
      the backtracking matcher of [re] for it.
    - The file system is a record of functions; a decoded JSON document is
      an inductive type whose objects are association lists, in the order
      of the document.
    - The recursion of the schema walk is bounded by the interpreter's
      recursion limit: at the limit the walk raises [RecursionError]. *)

From Stdlib Require Import String Ascii List Bool Arith ZArith Lia SpecFloat.
Import ListNotations.
Open Scope string_scope.

(** ** Exceptions and the error monad *)

Inductive exn : Set :=
| AttributeError
| TypeError
| KeyError
| IndexError
| RecursionError
| OSError
| UnicodeDecodeError.

Inductive result (A : Type) : Type :=
| Ok (a : A)
| Raise (e : exn).

Arguments Ok {A} a.
Arguments Raise {A} e.

Definition bind {A B : Type} (m : result A) (k : A -> result B) : result B :=
  match m with
  | Ok a => k a
  | Raise e => Raise e
  end.

Notation "x <- m ;; k" := (bind m (fun x => k))
  (at level 61, m at next level, right associativity).

(** [for x in xs: s = body x s], stopping at the first exception. *)
Fixpoint for_each {A S : Type} (xs : list A) (s : S)
    (body : A -> S -> result S) : result S :=
  match xs with
  | [] => Ok s
  | x :: rest => s' <- body x s ;; for_each rest s' body
  end.

(** A loop whose effects are not undone by an exception: it ends with the
    state it reached, alone when every iteration returned, together with
    the exception of the iteration that raised otherwise.  [body x s]
    raising leaves [s] as it was. *)
Inductive run (S : Type) : Type :=
| Finished (s : S)
| Stopped (s : S) (e : exn).

Arguments Finished {S} s.
Arguments Stopped {S} s e.

Fixpoint run_each {A S : Type} (xs : list A) (s : S)
    (body : A -> S -> result S) : run S :=
  match xs with
  | [] => Finished s
  | x :: rest =>
      match body x s with
      | Ok s' => run_each rest s' body
      | Raise e => Stopped s e
      end
  end.

(** The state a run ended with. *)
Definition reached {S : Type} (r : run S) : S :=
  match r with
  | Finished s => s
  | Stopped s _ => s
  end.

(** A step that only appends to the list it is given: its result on [acc]
    is [acc] followed by its result on the empty list. *)
Definition framed {R : Type} (f : list R -> result (list R)) : Prop :=
  forall acc, f acc = (added <- f [] ;; Ok (acc ++ added)%list).

(** ** Python string operations *)

Module PyStr.

(** [str.isspace] on one character, which is also the class [\s] of [re]
    on text: TAB..CR, FS..US, space, NEL and the no-break space. *)
Definition is_space (c : ascii) : bool :=
  let n := nat_of_ascii c in
  (((9 <=? n) && (n <=? 13)) || ((28 <=? n) && (n <=? 32))
   || (n =? 133) || (n =? 160))%nat.

(** The class [\w] of [re] on text: [str.isalnum] or the underscore. *)
Definition is_word (c : ascii) : bool :=
  let n := nat_of_ascii c in
  (((48 <=? n) && (n <=? 57)) || ((65 <=? n) && (n <=? 90)) || (n =? 95)
   || ((97 <=? n) && (n <=? 122)) || (n =? 170)
   || ((178 <=? n) && (n <=? 179)) || (n =? 181)
   || ((185 <=? n) && (n <=? 186)) || ((188 <=? n) && (n <=? 190))
   || ((192 <=? n) && (n <=? 214)) || ((216 <=? n) && (n <=? 246))
   || (248 <=? n))%nat.

Definition is_empty (s : string) : bool :=
  match s with
  | EmptyString => true
  | String _ _ => false
  end.

(** [s.startswith(p)] *)
Definition startswith (s p : string) : bool := String.prefix p s.

(** [needle in hay] on two strings: substring test. *)
Fixpoint contains (needle hay : string) : bool :=
  String.prefix needle hay
  || match hay with
     | EmptyString => false
     | String _ hay' => contains needle hay'
     end.

Fixpoint lstrip (s : string) : string :=
  match s with
  | EmptyString => EmptyString
  | String c s' => if is_space c then lstrip s' else s
  end.

Fixpoint rstrip (s : string) : string :=
  match s with
  | EmptyString => EmptyString
  | String c s' =>
      let r := rstrip s' in
      if is_space c && is_empty r then EmptyString else String c r
  end.

(** [s.strip()] *)
Definition strip (s : string) : string := rstrip (lstrip s).

(** [s.split(sep)] for a one-character separator: one more part than there
    are separators, never an empty list. *)
Fixpoint split_on (sep : ascii) (s : string) : list string :=
  match s with
  | EmptyString => [EmptyString]
  | String c s' =>
      if Ascii.eqb c sep then EmptyString :: split_on sep s'
      else match split_on sep s' with
           | part :: parts => String c part :: parts
           | [] => [String c EmptyString]
           end
  end.

(** [s.split()]: the maximal runs of non-whitespace characters. *)
Fixpoint split_ws (s : string) : list string :=
  match s with
  | EmptyString => []
  | String c s' =>
      if is_space c then split_ws s'
      else match s' with
           | EmptyString => [String c EmptyString]
           | String c' _ =>
               if is_space c' then String c EmptyString :: split_ws s'
               else match split_ws s' with
                    | tok :: toks => String c tok :: toks
                    | [] => [String c EmptyString]
                    end
           end
  end.

(** [xs[i]] on a list: [IndexError] out of range. *)
Definition index {A : Type} (xs : list A) (i : nat) : result A :=
  match nth_error xs i with
  | Some x => Ok x
  | None => Raise IndexError
  end.

(** [xs[-1]] *)
Definition index_last {A : Type} (xs : list A) : result A :=
  match rev xs with
  | x :: _ => Ok x
  | [] => Raise IndexError
  end.

(** The longest prefix of [s] whose characters satisfy [p], and the rest:
    what a greedy [[class]*] consumes. *)
Fixpoint span (p : ascii -> bool) (s : string) : string * string :=
  match s with
  | EmptyString => (EmptyString, EmptyString)
  | String c s' =>
      if p c then let (a, b) := span p s' in (String c a, b)
      else (EmptyString, s)
  end.

(** Every character of [s] satisfies [p]. *)
Fixpoint all_chars (p : ascii -> bool) (s : string) : bool :=
  match s with
  | EmptyString => true
  | String c s' => p c && all_chars p s'
  end.

(** [s] without the literal prefix [lit], when it starts with it. *)
Fixpoint strip_prefix (lit s : string) : option string :=
  match lit, s with
  | EmptyString, _ => Some s
  | String a lit', String b s' =>
      if Ascii.eqb a b then strip_prefix lit' s' else None
  | String _ _, EmptyString => None
  end.

End PyStr.

(** ** The fragment of [re] the scripts use

    A pattern is a sequence of literals and greedy character-class
    repetitions, some of them capturing.  [match_items] is the backtracking
    matcher of [re]: a repetition first takes as many characters as it can
    and gives them back one at a time while the rest of the pattern fails. *)

Module Regex.

Inductive item : Type :=
| Lit (text : string)
| Rep (capture : bool) (min : nat) (cls : ascii -> bool).

Definition pattern := list item.

Fixpoint rep {R : Type} (cls : ascii -> bool) (min : nat) (s : string)
    (k : string -> string -> option R) : option R :=
  let stop := if (min =? 0)%nat then k EmptyString s else None in
  match s with
  | EmptyString => stop
  | String c s' =>
      if cls c then
        match rep cls (Nat.pred min) s' (fun eaten rest => k (String c eaten) rest) with
        | Some r => Some r
        | None => stop
        end
      else stop
  end.

(** A match of the whole pattern at the start of [s]: the captured groups,
    in order, and the text after the match. *)
Fixpoint match_items (p : pattern) (s : string) (groups : list string)
    : option (list string * string) :=
  match p with
  | [] => Some (rev groups, s)
  | Lit text :: p' =>
      match PyStr.strip_prefix text s with
      | Some s' => match_items p' s' groups
      | None => None
      end
  | Rep capture min cls :: p' =>
      rep cls min s (fun eaten rest =>
        match_items p' rest (if capture then eaten :: groups else groups))
  end.

(** [p.search(s)]: the groups of the leftmost match. *)
Fixpoint search (p : pattern) (s : string) : option (list string) :=
  match match_items p s [] with
  | Some (groups, _) => Some groups
  | None =>
      match s with
      | EmptyString => None
      | String _ s' => search p s'
      end
  end.

(** [p.finditer(s)]: the groups of the successive non-overlapping matches,
    left to right.  [skip] counts the characters of the last match still to
    be stepped over. *)
Fixpoint finditer_from (p : pattern) (skip : nat) (s : string)
    : list (list string) :=
  let next k :=
    match s with
    | EmptyString => []
    | String _ s' => finditer_from p k s'
    end in
  match skip with
  | S k => next k
  | O =>
      match match_items p s [] with
      | Some (groups, rest) =>
          groups :: next (Nat.pred (String.length s - String.length rest))
      | None => next O
      end
  end.

Definition finditer (p : pattern) (s : string) : list (list string) :=
  finditer_from p 0 s.

(** [m.group(i)], groups numbered from 1. *)
Definition group (m : list string) (i : nat) : string :=
  nth (Nat.pred i) m EmptyString.

End Regex.

(** ** scripts/extract_fields.py *)

Module ExtractFields.
Import PyStr Regex.

(** The class of every character but [c]. *)
Definition char_is_not (c : ascii) : ascii -> bool :=
  fun x => negb (Ascii.eqb x c).

Definition newline : ascii := "010"%char.

(** [type\s+(\w+)\s+struct\s*{([^}]+)}] *)
Definition struct_pattern : pattern :=
  [ Lit "type"; Rep false 1 is_space; Rep true 1 is_word;
    Rep false 1 is_space; Lit "struct"; Rep false 0 is_space; Lit "{";
    Rep true 1 (char_is_not "}"); Lit "}" ].

Definition dquote : ascii := "034"%char.

(** The json tag pattern: the text json: and a double quote, then a captured
    greedy run of characters other than the double quote, then a double
    quote. *)
Definition json_tag_pattern : pattern :=
  [ Lit ("json:" ++ String dquote EmptyString);
    Rep true 0 (char_is_not dquote);
    Lit (String dquote EmptyString) ].

Definition api_dirs : list string :=
  [ "pkg/apis"; "staging/src/k8s.io/api" ].

(** One row of [fields]; [Type_] is the key ['Type']. *)
Record FieldRecord : Set := mkField {
  Field : string;
  Type_ : string;
  JSONTag : string;
  Optional : string;
  StructTags : string
}.

(** The variables of the line loop of [extract_struct_fields]. *)
Record scan_state : Set := mkState {
  comment_block : list string;
  is_optional : bool;
  fields : list FieldRecord
}.

(** [len(parts) == 1 or (len(parts) > 1 and parts[0] == parts[1])] *)
Definition is_embedded (parts : list string) : bool :=
  (length parts =? 1)%nat
  || ((1 <? length parts)%nat
      && String.eqb (nth 0 parts EmptyString) (nth 1 parts EmptyString)).

(** The [json_tag] read out of a tag text: group 1 of the first match of
    [json_tag_pattern], the empty string the variable starts with when
    there is none. *)
Definition json_tag_of (tags : string) : string :=
  match search json_tag_pattern tags with
  | Some json_match => group json_match 1
  | None => EmptyString
  end.

(** The [tags] and the [json_tag] of a stripped field line. *)
Definition line_tags (line : string) : result (string * string) :=
  if contains "`" line then
    tags_part <- index (split_on "`" line) 1 ;;
    let tags := tags_part in
    Ok (tags, json_tag_of tags)
  else Ok (EmptyString, EmptyString).

(** The body of [for line in lines]. *)
Definition process_line (raw : string) (st : scan_state) : result scan_state :=
  let line := strip raw in
  if is_empty line then Ok st
  else if startswith line "//" then
    Ok (mkState (comment_block st ++ [line])
                (if contains "+optional" line then true else is_optional st)
                (fields st))
  else
    let parts := split_ws line in
    if is_embedded parts then Ok (mkState [] false (fields st))
    else
      field_name <- index parts 0 ;;
      field_type <- index parts 1 ;;
      tj <- line_tags line ;;
      let (tags, json_tag) := tj : string * string in
      let optional :=
        if is_optional st || (negb (is_empty tags) && contains "+optional" tags)
        then "true" else "false" in
      Ok (mkState [] false
            (fields st ++ [mkField field_name field_type json_tag optional tags])).

(** Which branch of the loop body a raw line takes. *)
Inductive line_kind : Set := Blank | Comment | Embedded | Declaration.

Definition classify (raw : string) : line_kind :=
  let line := strip raw in
  if is_empty line then Blank
  else if startswith line "//" then Comment
  else if is_embedded (split_ws line) then Embedded
  else Declaration.

(** The invariant of the line loop: the flag is the memory of the pending
    comment lines. *)
Definition flag_tracks_comments (st : scan_state) : Prop :=
  is_optional st = existsb (contains "+optional") (comment_block st).

(** The lines of one matching struct body, appended to [fields]. *)
Definition struct_body_fields (struct_body : string) (acc : list FieldRecord)
    : result (list FieldRecord) :=
  let lines := split_on newline struct_body in
  st <- for_each lines (mkState [] false acc) process_line ;;
  Ok (fields st).

(** [extract_struct_fields] once the file is read. *)
Definition extract_from_content (content struct_name : string)
    : result (list FieldRecord) :=
  for_each (finditer struct_pattern content) []
    (fun m acc =>
       let current_struct_name := group m 1 in
       let struct_body := group m 2 in
       if negb (String.eqb current_struct_name struct_name) then Ok acc
       else struct_body_fields struct_body acc).

(** *** The file system the script reads

    [listdir] and [read_text] raise ([OSError] for a missing or unreadable
    entry, [UnicodeDecodeError] for a file that is not text);
    [os.path.exists], [os.path.isdir] and [glob.glob] never do.
    [glob_go d] stands for [glob.glob(d + '/**/*.go', recursive=True)]. *)
Record filesystem : Type := mkFS {
  listdir : string -> result (list string);
  path_exists : string -> bool;
  isdir : string -> bool;
  read_text : string -> result string;
  glob_go : string -> list string
}.

Fixpoint endswith_char (c : ascii) (s : string) : bool :=
  match s with
  | EmptyString => false
  | String a EmptyString => Ascii.eqb a c
  | String _ s' => endswith_char c s'
  end.

(** [os.path.join(a, *p)] of [posixpath]. *)
Definition path_join (a : string) (p : list string) : string :=
  fold_left
    (fun path b =>
       if startswith b "/" then b
       else if is_empty path || endswith_char "/" path then path ++ b
       else path ++ "/" ++ b)
    p a.

Definition mem (x : string) (xs : list string) : bool :=
  existsb (String.eqb x) xs.

(** Some struct declared in [content] is named [kind]. *)
Definition declares (kind content : string) : bool :=
  existsb (fun m => String.eqb (group m 1) kind)
          (finditer struct_pattern content).

(** The [search_paths] of [find_struct_file]. *)
Definition expected_paths (fs : filesystem) (api_group : string)
    : result (list string) :=
  if String.eqb api_group "" then
    Ok [ "pkg/apis/core/types.go"; "staging/src/k8s.io/api/core/v1/types.go" ]
  else
    let api_group_parts := split_on "." api_group in
    part0 <- index api_group_parts 0 ;;
    entries <- listdir fs "pkg/apis" ;;
    let search_paths :=
      if mem part0 entries then
        let path := path_join "pkg/apis" [part0; "types.go"] in
        if path_exists fs path then [path] else []
      else [] in
    entries' <- listdir fs "staging/src/k8s.io/api" ;;
    if mem part0 entries' then
      versions <- listdir fs (path_join "staging/src/k8s.io/api" [part0]) ;;
      for_each versions search_paths
        (fun version search_paths =>
           if isdir fs (path_join "staging/src/k8s.io/api" [part0; version])
           then
             let path :=
               path_join "staging/src/k8s.io/api" [part0; version; "types.go"] in
             if path_exists fs path then Ok (search_paths ++ [path])%list
             else Ok search_paths
           else Ok search_paths)
    else Ok search_paths.

(** The first loop: the expected files, read without any handler. *)
Fixpoint probe_paths (fs : filesystem) (kind : string) (paths : list string)
    : result (option string) :=
  match paths with
  | [] => Ok None
  | path :: rest =>
      if path_exists fs path then
        content <- read_text fs path ;;
        if declares kind content then Ok (Some path)
        else probe_paths fs kind rest
      else probe_paths fs kind rest
  end.

(** The inner loop of the broad search, with its
    [except UnicodeDecodeError: continue]. *)
Fixpoint scan_files (fs : filesystem) (kind : string) (files : list string)
    : result (option string) :=
  match files with
  | [] => Ok None
  | file_path :: rest =>
      if contains "test" file_path || contains "generated" file_path then
        scan_files fs kind rest
      else
        match read_text fs file_path with
        | Ok content =>
            if declares kind content then Ok (Some file_path)
            else scan_files fs kind rest
        | Raise UnicodeDecodeError => scan_files fs kind rest
        | Raise e => Raise e
        end
  end.

Fixpoint scan_dirs (fs : filesystem) (kind : string) (dirs : list string)
    : result (option string) :=
  match dirs with
  | [] => Ok None
  | api_dir :: rest =>
      found <- scan_files fs kind (glob_go fs api_dir) ;;
      match found with
      | Some file_path => Ok (Some file_path)
      | None => scan_dirs fs kind rest
      end
  end.

(** [find_struct_file]: [Ok None] is the returned [None]. *)
Definition find_struct_file (fs : filesystem) (api_group kind : string)
    : result (option string) :=
  search_paths <- expected_paths fs api_group ;;
  found <- probe_paths fs kind search_paths ;;
  match found with
  | Some path => Ok (Some path)
  | None => scan_dirs fs kind api_dirs
  end.

Definition extract_struct_fields (fs : filesystem)
    (file_path struct_name : string) : result (list FieldRecord) :=
  if negb (path_exists fs file_path) then Ok []
  else
    content <- read_text fs file_path ;;
    extract_from_content content struct_name.

(** The row [writer.writerow] gets for one field. *)
Definition row_of (api_group kind : string) (field : FieldRecord)
    : list string :=
  [ api_group; kind; Field field; Type_ field; JSONTag field;
    Optional field; StructTags field ].

(** The body of the loop of [main]: the rows one input adds to those
    written so far.  The file is located and its fields are extracted
    before the first row of the input is written, so an exception of
    either leaves the rows as they were. *)
Definition item_rows (fs : filesystem) (item : string * string)
    (rows : list (list string)) : result (list (list string)) :=
  let (api_group, kind) := item in
  struct_file <- find_struct_file fs api_group kind ;;
  match struct_file with
  | Some file =>
      if is_empty file then Ok rows
      else
        found <- extract_struct_fields fs file kind ;;
        Ok (rows ++ map (row_of api_group kind) found)%list
  | None => Ok rows
  end.

(** The processing loop of [main] over the rows of the input table, inside
    the [with] that holds the output file open: the rows written after the
    header.  Nothing in it handles an exception: the run stops at the input
    that raises, and the rows of the inputs before it are in the file. *)
Definition main_loop (fs : filesystem) (api_groups_kinds : list (string * string))
    : run (list (list string)) :=
  run_each api_groups_kinds [] (item_rows fs).

(** The line is a field declaration, and its first two tokens. *)
Definition is_declaration (raw : string) : bool :=
  match classify raw with
  | Declaration => true
  | _ => false
  end.

Definition name_and_type (raw : string) : string * string :=
  let parts := split_ws (strip raw) in
  (nth 0 parts EmptyString, nth 1 parts EmptyString).

Definition not_space (c : ascii) : bool := negb (is_space c).

(** What every record of the extractor looks like. *)
Definition well_formed (r : FieldRecord) : Prop :=
  Field r <> EmptyString /\ all_chars not_space (Field r) = true
  /\ Type_ r <> EmptyString /\ all_chars not_space (Type_ r) = true
  /\ (Optional r = "true" \/ Optional r = "false")
  /\ contains "`" (StructTags r) = false
  /\ all_chars (char_is_not dquote) (JSONTag r) = true.

End ExtractFields.

(** ** scripts/extract_openapi_fields.py *)

Module ExtractOpenapiFields.
Import PyStr.

(** A decoded JSON document, as [json.load] returns it: a [dict] keeps the
    order of its keys, so an object is an association list; a number is an
    [int] or a [float], the latter an IEEE 754 value. *)
#[warnings="-register-all"]
Inductive json : Type :=
| JNull
| JBool (b : bool)
| JInt (z : Z)
| JFloat (f : spec_float)
| JStr (s : string)
| JArr (items : list json)
| JObj (members : list (string * json)).

Fixpoint lookup (key : string) (m : list (string * json)) : option json :=
  match m with
  | [] => None
  | (k, v) :: m' => if String.eqb k key then Some v else lookup key m'
  end.

(** [bool(v)]: [None], [False], zero of either kind and sign and the empty
    string, list and dict are false. *)
Definition truthy (v : json) : bool :=
  match v with
  | JNull => false
  | JBool b => b
  | JInt z => negb (Z.eqb z 0)
  | JFloat f => match f with S754_zero _ => false | _ => true end
  | JStr s => negb (is_empty s)
  | JArr l => match l with [] => false | _ :: _ => true end
  | JObj m => match m with [] => false | _ :: _ => true end
  end.

(** [v == s] for a string [s] *)
Definition is_str (v : json) (s : string) : bool :=
  match v with
  | JStr t => String.eqb t s
  | _ => false
  end.

(** [d.get(key, default)]: only a [dict] has the method. *)
Definition py_get (d : json) (key : string) (default : json) : result json :=
  match d with
  | JObj m => Ok (match lookup key m with Some v => v | None => default end)
  | _ => Raise AttributeError
  end.

(** [d.items()] *)
Definition py_items (d : json) : result (list (string * json)) :=
  match d with
  | JObj m => Ok m
  | _ => Raise AttributeError
  end.

(** [key in c] for a string [key]: a key of a dict, an element of a list,
    a substring of a string; other values are not containers. *)
Definition py_in (key : string) (c : json) : result bool :=
  match c with
  | JObj m => Ok (match lookup key m with Some _ => true | None => false end)
  | JArr l => Ok (existsb (fun v => is_str v key) l)
  | JStr s => Ok (contains key s)
  | _ => Raise TypeError
  end.

(** [c[key]] for a string [key] *)
Definition py_getitem (c : json) (key : string) : result json :=
  match c with
  | JObj m => match lookup key m with Some v => Ok v | None => Raise KeyError end
  | _ => Raise TypeError
  end.

(** [c[0]] *)
Definition py_getitem0 (c : json) : result json :=
  match c with
  | JArr (x :: _) => Ok x
  | JArr [] => Raise IndexError
  | JStr (String a _) => Ok (JStr (String a EmptyString))
  | JStr EmptyString => Raise IndexError
  | JObj _ => Raise KeyError
  | _ => Raise TypeError
  end.

Fixpoint chars (s : string) : list json :=
  match s with
  | EmptyString => []
  | String a s' => JStr (String a EmptyString) :: chars s'
  end.

(** The values [for x in c] runs through. *)
Definition py_iter (c : json) : result (list json) :=
  match c with
  | JArr l => Ok l
  | JObj m => Ok (map (fun kv => JStr (fst kv)) m)
  | JStr s => Ok (chars s)
  | _ => Raise TypeError
  end.

(** [ref.split('/')[-1]] *)
Definition ref_name (ref : json) : result json :=
  match ref with
  | JStr s => name <- index_last (split_on "/" s) ;; Ok (JStr name)
  | _ => Raise AttributeError
  end.

(** One element of the list [fields]; [Type_] is the key ['Type'].  The
    type and the description are whatever value the schema holds there. *)
Record FieldRecord : Type := mkField {
  APIGroup : string;
  Kind : string;
  Field : string;
  Type_ : json;
  JSONTag : string;
  Optional : string;
  Description : json
}.

Definition is_envelope (prop_name : string) : bool :=
  String.eqb prop_name "apiVersion" || String.eqb prop_name "kind".

(** [f"{path}.{prop_name}" if path else prop_name] *)
Definition join_path (path prop_name : string) : string :=
  if is_empty path then prop_name else path ++ "." ++ prop_name.

(** ['allOf' in d and d['allOf'] and '$ref' in d['allOf'][0]] *)
Definition has_allOf_ref (d : json) : result bool :=
  present <- py_in "allOf" d ;;
  if negb present then Ok false
  else
    all_of <- py_getitem d "allOf" ;;
    if negb (truthy all_of) then Ok false
    else first <- py_getitem0 all_of ;; py_in "$ref" first.

(** [d['allOf'][0]['$ref'].split('/')[-1]] *)
Definition allOf_ref_name (d : json) : result json :=
  all_of <- py_getitem d "allOf" ;;
  first <- py_getitem0 all_of ;;
  ref <- py_getitem first "$ref" ;;
  ref_name ref.

(** ['required' in schema and prop_name in schema['required']] *)
Definition is_required (schema : json) (prop_name : string) : result bool :=
  present <- py_in "required" schema ;;
  if present then
    required <- py_getitem schema "required" ;; py_in prop_name required
  else Ok false.

(** ['items' in d and 'properties' in d['items']] *)
Definition items_have_properties (prop_data : json) : result bool :=
  present <- py_in "items" prop_data ;;
  if present then
    items <- py_getitem prop_data "items" ;; py_in "properties" items
  else Ok false.

Section Walker.

(** [str(v)] for a decoded value that is not a string, as an f-string
    formats it; the text Python prints for numbers and containers is not
    modelled. *)
Variable py_str : json -> string.

Definition format (v : json) : string :=
  match v with
  | JStr s => s
  | _ => py_str v
  end.

(** The [item_type] of an array property. *)
Definition item_type_of (items : json) : result json :=
  has_ref <- py_in "$ref" items ;;
  if has_ref then ref <- py_getitem items "$ref" ;; ref_name ref
  else
    has_all_of <- has_allOf_ref items ;;
    if has_all_of then allOf_ref_name items
    else
      has_type <- py_in "type" items ;;
      if has_type then py_getitem items "type" else Ok (JStr "").

(** The [field_type] of a property. *)
Definition field_type_of (prop_data : json) : result json :=
  has_ref <- py_in "$ref" prop_data ;;
  if has_ref then ref <- py_getitem prop_data "$ref" ;; ref_name ref
  else
    has_all_of <- has_allOf_ref prop_data ;;
    if has_all_of then allOf_ref_name prop_data
    else
      has_type <- py_in "type" prop_data ;;
      if has_type then
        field_type <- py_getitem prop_data "type" ;;
        has_items <-
          (if is_str field_type "array" then py_in "items" prop_data
           else Ok false) ;;
        if has_items then
          items <- py_getitem prop_data "items" ;;
          item_type <- item_type_of items ;;
          Ok (JStr ("array of " ++ format item_type))
        else Ok field_type
      else Ok (JStr "").

Variables api_group kind : string.

(** The record appended for one property that is not skipped. *)
Definition property_record (schema : json) (path prop_name : string)
    (prop_data : json) : result FieldRecord :=
  let field_path := join_path path prop_name in
  let json_tag := prop_name in
  description <- py_get prop_data "description" (JStr "") ;;
  required <- is_required schema prop_name ;;
  let optional := if required then "false" else "true" in
  field_type <- field_type_of prop_data ;;
  Ok (mkField api_group kind field_path field_type json_tag optional
              description).

(** The body of the loop over [properties.items()]; [recurse] is the
    function itself, one call deeper. *)
Definition process_property
    (recurse : json -> string -> list FieldRecord -> result (list FieldRecord))
    (schema : json) (path : string) (prop : string * json)
    (fields : list FieldRecord) : result (list FieldRecord) :=
  let (prop_name, prop_data) := prop in
  if is_envelope prop_name && String.eqb path "" then Ok fields
  else
    let field_path := join_path path prop_name in
    record <- property_record schema path prop_name prop_data ;;
    let fields := (fields ++ [record])%list in
    has_properties <- py_in "properties" prop_data ;;
    if has_properties then recurse prop_data field_path fields
    else
      has_all_of <- py_in "allOf" prop_data ;;
      if has_all_of then
        all_of <- py_getitem prop_data "allOf" ;;
        sub_schemas <- py_iter all_of ;;
        for_each sub_schemas fields
          (fun sub_schema fields =>
             sub_has_properties <- py_in "properties" sub_schema ;;
             if sub_has_properties then recurse sub_schema field_path fields
             else Ok fields)
      else
        nested_items <- items_have_properties prop_data ;;
        if nested_items then
          items <- py_getitem prop_data "items" ;;
          recurse items (field_path ++ "[]") fields
        else Ok fields.

(** [get_fields_from_schema(schema, path, fields, api_group, kind)].
    [limit] is the number of nested calls the interpreter still allows:
    at zero the call raises [RecursionError]. *)
Fixpoint get_fields_from_schema (limit : nat) (schema : json) (path : string)
    (fields : list FieldRecord) : result (list FieldRecord) :=
  match limit with
  | O => Raise RecursionError
  | S limit' =>
      properties <- py_get schema "properties" (JObj []) ;;
      props <- py_items properties ;;
      for_each props fields
        (process_property (get_fields_from_schema limit') schema path)
  end.

End Walker.

(** The three recursive calls of the loop body: the level [schema] at
    [path] calls the function on another schema at another path. *)
Inductive calls (schema : json) (path : string) : json -> string -> Prop :=
| calls_properties props n d :
    py_get schema "properties" (JObj []) = Ok (JObj props) ->
    In (n, d) props ->
    is_envelope n && String.eqb path "" = false ->
    py_in "properties" d = Ok true ->
    calls schema path d (join_path path n)
| calls_allOf props n d all_of subs sub :
    py_get schema "properties" (JObj []) = Ok (JObj props) ->
    In (n, d) props ->
    is_envelope n && String.eqb path "" = false ->
    py_in "properties" d = Ok false ->
    py_in "allOf" d = Ok true ->
    py_getitem d "allOf" = Ok all_of ->
    py_iter all_of = Ok subs ->
    In sub subs ->
    py_in "properties" sub = Ok true ->
    calls schema path sub (join_path path n)
| calls_items props n d items :
    py_get schema "properties" (JObj []) = Ok (JObj props) ->
    In (n, d) props ->
    is_envelope n && String.eqb path "" = false ->
    py_in "properties" d = Ok false ->
    py_in "allOf" d = Ok false ->
    items_have_properties d = Ok true ->
    py_getitem d "items" = Ok items ->
    calls schema path items (join_path path n ++ "[]").

(** The levels a walk from [schema] at [path] reaches. *)
Inductive visits (schema : json) (path : string) : json -> string -> Prop :=
| visits_here : visits schema path schema path
| visits_deeper s p s' p' :
    visits schema path s p -> calls s p s' p' -> visits schema path s' p'.

(** A schema object without the [apiVersion] and [kind] entries of its
    [properties]. *)
Fixpoint without_envelope (m : list (string * json)) : list (string * json) :=
  match m with
  | [] => []
  | (k, v) :: m' =>
      if String.eqb k "properties" then
        (k, match v with
            | JObj props =>
                JObj (filter (fun kv => negb (is_envelope (fst kv))) props)
            | _ => v
            end) :: m'
      else (k, v) :: without_envelope m'
  end.

(** The final path segment of a reference, in the words of the
    specification: the text after its last slash, the whole text when it
    has none. *)
Fixpoint final_segment (s : string) : string :=
  match s with
  | EmptyString => EmptyString
  | String c s' =>
      if Ascii.eqb c "/" || contains "/" s' then final_segment s' else s
  end.

(** The type of a schema, in the words of the specification: the final
    segment of its [$ref], else the final segment of the [$ref] of the
    first member of its [allOf], else its plain [type] string. *)
Inductive named_type : json -> string -> Prop :=
| named_by_ref m ref :
    lookup "$ref" m = Some (JStr ref) ->
    named_type (JObj m) (final_segment ref)
| named_by_allOf_ref m first rest ref :
    lookup "$ref" m = None ->
    lookup "allOf" m = Some (JArr (JObj first :: rest)) ->
    lookup "$ref" first = Some (JStr ref) ->
    named_type (JObj m) (final_segment ref)
| named_by_type m t :
    lookup "$ref" m = None ->
    has_allOf_ref (JObj m) = Ok false ->
    lookup "type" m = Some (JStr t) ->
    named_type (JObj m) t.

(** The nesting depth of a document. *)
Fixpoint depth (v : json) : nat :=
  match v with
  | JArr l => S (fold_right (fun x d => Nat.max (depth x) d) 0%nat l)
  | JObj m => S (fold_right (fun kv d => Nat.max (depth (snd kv)) d) 0%nat m)
  | _ => 0%nat
  end.

(** *** Finding the schema of a kind *)

Definition openapi_dir : string := "api/openapi-spec/v3".

(** The OpenAPI files: [glob_files pattern] stands for [glob.glob(pattern)],
    which raises nothing, and [load_json path] for opening the file and
    [json.load], which raise when the file cannot be read or is not JSON. *)
Record openapi_files : Type := mkFiles {
  glob_files : string -> list string;
  load_json : string -> result json
}.

(** [s.replace(a, b)] for one-character [a] and [b]. *)
Fixpoint replace_char (a b : ascii) (s : string) : string :=
  match s with
  | EmptyString => EmptyString
  | String c s' => String (if Ascii.eqb c a then b else c) (replace_char a b s')
  end.

Definition schema_id_of (api_group kind version : string) : string :=
  if String.eqb api_group "" then
    "io.k8s.api.core." ++ version ++ "." ++ kind
  else
    "io.k8s.api." ++ replace_char "." "_" api_group ++ "." ++ version ++ "."
    ++ kind.

Definition filename_of (api_group version : string) : string :=
  if String.eqb api_group "" then "api__" ++ version ++ "_openapi.json"
  else
    "apis__" ++ replace_char "." "_" api_group ++ "__" ++ version
    ++ "_openapi.json".

(** The files the schema is looked for in: those of the requested version,
    those of any version of the group when there is none. *)
Definition matching_files (files : openapi_files) (api_group version : string)
    : list string :=
  match glob_files files
          (ExtractFields.path_join openapi_dir [filename_of api_group version])
  with
  | [] =>
      glob_files files
        (ExtractFields.path_join openapi_dir
           ["apis__" ++ replace_char "." "_" api_group ++ "__*_openapi.json"])
  | found => found
  end.

(** The body of the [try]:
    [openapi_data.get('components', {}).get('schemas', {}).get(schema_id)]
    on the loaded file. *)
Definition read_schema (files : openapi_files) (schema_id file_path : string)
    : result json :=
  openapi_data <- load_json files file_path ;;
  components <- py_get openapi_data "components" (JObj []) ;;
  schemas <- py_get components "schemas" (JObj []) ;;
  py_get schemas schema_id JNull.

(** The loop over the matching files; [except Exception] takes every
    exception of the body and goes on with the next file. *)
Fixpoint first_schema (files : openapi_files) (schema_id : string)
    (paths : list string) : option json :=
  match paths with
  | [] => None
  | file_path :: rest =>
      match read_schema files schema_id file_path with
      | Ok schema =>
          if truthy schema then Some schema
          else first_schema files schema_id rest
      | Raise _ => first_schema files schema_id rest
      end
  end.

(** [get_resource_schema(api_group, kind, version)]: [None] is the returned
    [None]. *)
Definition get_resource_schema (files : openapi_files)
    (api_group kind version : string) : option json :=
  first_schema files (schema_id_of api_group kind version)
    (matching_files files api_group version).

(** One row of the input table: the group, the kind and the [Version]
    column when the table has one. *)
Record table_row : Set := mkRow {
  row_group : string;
  row_kind : string;
  row_version : option string
}.

Section Driver.

Variable py_str : json -> string.

(** The body of the loop of [main]: the records one input row adds to
    [all_fields].  The walk is called with no handler around it. *)
Definition item_fields (files : openapi_files) (limit : nat) (item : table_row)
    (all_fields : list FieldRecord) : result (list FieldRecord) :=
  let api_group := row_group item in
  let kind := row_kind item in
  let version := match row_version item with Some v => v | None => "v1" end in
  match get_resource_schema files api_group kind version with
  | Some schema =>
      if truthy schema then
        found <- get_fields_from_schema py_str api_group kind limit schema
                   "" [] ;;
        Ok (all_fields ++ found)%list
      else Ok all_fields
  | None => Ok all_fields
  end.

(** The processing loop of [main]: the records of every input row whose
    schema is found, in the order of the rows. *)
Definition main_fields (files : openapi_files) (limit : nat)
    (api_groups_kinds : list table_row) : result (list FieldRecord) :=
  for_each api_groups_kinds [] (item_fields files limit).

End Driver.

End ExtractOpenapiFields.

(** * Properties *)

(** ** The error monad and the loops *)

Lemma for_each_app {A S : Type} (xs ys : list A) (s : S)
    (body : A -> S -> result S) :
  for_each (xs ++ ys) s body
  = (s' <- for_each xs s body ;; for_each ys s' body).
Proof.
  revert s; induction xs as [|x xs IH]; intros s; simpl.
  - reflexivity.
  - destruct (body x s) as [s1|e]; simpl; [apply IH | reflexivity].
Qed.

Lemma bind_ok_inv {A B : Type} (m : result A) (k : A -> result B) (b : B) :
  (x <- m ;; k x) = Ok b -> exists a, m = Ok a /\ k a = Ok b.
Proof.
  destruct m as [a|e]; simpl; intros H; [eauto | discriminate].
Qed.

(** ** Python strings *)

Module PyStrFacts.
Import PyStr.

Lemma lstrip_head (s : string) (c : ascii) (r : string) :
  lstrip s = String c r -> is_space c = false.
Proof.
  induction s as [|a s IH]; simpl; [discriminate|].
  destruct (is_space a) eqn:Ha; [exact IH|].
  intros H; injection H as -> _; exact Ha.
Qed.

Lemma strip_head (s : string) (c : ascii) (r : string) :
  strip s = String c r -> is_space c = false.
Proof.
  unfold strip. destruct (lstrip s) as [|a t] eqn:E; simpl; [discriminate|].
  pose proof (lstrip_head _ _ _ E) as Ha. rewrite Ha; simpl.
  intros H; injection H as -> _; exact Ha.
Qed.

Lemma split_ws_head (c : ascii) (r : string) :
  is_space c = false -> exists tok toks, split_ws (String c r) = tok :: toks.
Proof.
  intros Hc; simpl; rewrite Hc.
  destruct r as [|c' r']; [eauto|].
  destruct (is_space c'); [eauto|].
  destruct (split_ws (String c' r')); eauto.
Qed.

(** No token of [s.split()] is empty. *)
Lemma split_ws_tokens (s : string) :
  Forall (fun tok => tok <> EmptyString) (split_ws s).
Proof.
  induction s as [|c s IH]; [constructor|].
  cbn [split_ws]. destruct (is_space c); [exact IH|].
  destruct s as [|c' s']; [repeat constructor; discriminate|].
  destruct (is_space c').
  - constructor; [discriminate | exact IH].
  - destruct (split_ws (String c' s')) as [|tok toks].
    + repeat constructor; discriminate.
    + inversion IH; subst. constructor; [discriminate | assumption].
Qed.

Lemma split_on_cons (sep : ascii) (s : string) :
  exists part parts, split_on sep s = part :: parts.
Proof.
  destruct s as [|c s]; simpl; [eauto|].
  destruct (Ascii.eqb c sep); [eauto|].
  destruct (split_on sep s); eauto.
Qed.

Lemma contains_char_cons (a c : ascii) (s : string) :
  contains (String a EmptyString) (String c s)
  = Ascii.eqb a c || contains (String a EmptyString) s.
Proof.
  simpl. destruct (ascii_dec a c) as [->|Hne].
  - rewrite Ascii.eqb_refl. destruct s; reflexivity.
  - destruct (Ascii.eqb_spec a c); [contradiction | reflexivity].
Qed.

(** A string that contains the separator splits into two parts at least. *)
Lemma split_on_second (sep : ascii) (s : string) :
  contains (String sep EmptyString) s = true ->
  exists part part' parts, split_on sep s = part :: part' :: parts.
Proof.
  induction s as [|c s IH]; [discriminate|].
  rewrite contains_char_cons. simpl split_on.
  destruct (Ascii.eqb_spec sep c) as [->|Hne]; simpl.
  - intros _. rewrite Ascii.eqb_refl.
    destruct (split_on_cons c s) as (p & ps & ->); eauto.
  - intros H. destruct (IH H) as (p & p' & ps & E).
    rewrite E. destruct (Ascii.eqb c sep); eauto.
Qed.

Lemma split_on_none (sep : ascii) (s : string) :
  contains (String sep EmptyString) s = false -> split_on sep s = [s].
Proof.
  induction s as [|c s IH]; [reflexivity|].
  rewrite contains_char_cons. simpl split_on.
  destruct (Ascii.eqb_spec sep c) as [->|Hne]; simpl; [discriminate|].
  intros H. rewrite (IH H).
  destruct (Ascii.eqb_spec c sep) as [->|_]; [congruence | reflexivity].
Qed.

(** Splitting at the only separator of a string. *)
Lemma split_on_once (sep : ascii) (pre post : string) :
  contains (String sep EmptyString) pre = false ->
  contains (String sep EmptyString) post = false ->
  split_on sep (pre ++ String sep post) = [pre; post].
Proof.
  intros Hpre Hpost. induction pre as [|c pre IH].
  - simpl. rewrite Ascii.eqb_refl, (split_on_none _ _ Hpost). reflexivity.
  - rewrite contains_char_cons in Hpre.
    destruct (Ascii.eqb_spec sep c) as [->|Hne]; simpl in Hpre; [discriminate|].
    simpl. rewrite (IH Hpre).
    destruct (Ascii.eqb_spec c sep) as [->|_]; [congruence | reflexivity].
Qed.

Lemma index_last_cons {A : Type} (x y : A) (ys : list A) :
  index_last (x :: y :: ys) = index_last (y :: ys).
Proof.
  unfold index_last. cbn [rev].
  destruct (rev ys ++ [y])%list as [|z zs] eqn:E; [|reflexivity].
  destruct (rev ys); discriminate.
Qed.

Lemma is_empty_false (s : string) : s <> EmptyString -> is_empty s = false.
Proof. destruct s; [contradiction | reflexivity]. Qed.

Lemma append_nonempty (s t : string) (c : ascii) :
  (s ++ String c t)%string <> EmptyString.
Proof. destruct s; discriminate. Qed.

End PyStrFacts.

(** ** What a match is made of *)

Module RegexFacts.
Import PyStr Regex ExtractFields.

Lemma strip_prefix_app (lit s s' : string) :
  strip_prefix lit s = Some s' -> s = lit ++ s'.
Proof.
  revert s. induction lit as [|a lit IH]; intros [|b s]; simpl;
    try discriminate; try (intros [= <-]; reflexivity).
  destruct (Ascii.eqb_spec a b) as [->|Hne]; [|discriminate].
  intros H. f_equal. exact (IH s H).
Qed.

(** A repetition eats a run of its class, at least [min] long, and hands
    the rest to what follows. *)
Lemma rep_inv {R : Type} (cls : ascii -> bool) (min : nat) (s : string)
    (k : string -> string -> option R) (r : R) :
  rep cls min s k = Some r ->
  exists eaten rest,
    s = eaten ++ rest /\ all_chars cls eaten = true
    /\ min <= String.length eaten /\ k eaten rest = Some r.
Proof.
  assert (forall min s (k : string -> string -> option R),
            (if (min =? 0)%nat then k EmptyString s else None) = Some r ->
            exists eaten rest,
              s = eaten ++ rest /\ all_chars cls eaten = true
              /\ min <= String.length eaten /\ k eaten rest = Some r)
    as Hstop.
  { intros m t k' H. destruct (Nat.eqb_spec m 0) as [->|_]; [|discriminate].
    exists EmptyString, t. repeat split; auto. }
  revert min k. induction s as [|c s IH]; intros min k; cbn [rep].
  - apply Hstop.
  - destruct (cls c) eqn:Hc; [|apply Hstop].
    destruct (rep cls (Nat.pred min) s _) as [r0|] eqn:E; [|apply Hstop].
    intros [= ->].
    destruct (IH _ _ E) as (eaten & rest & -> & Hall & Hmin & Hk).
    exists (String c eaten), rest. cbn [all_chars String.length].
    rewrite Hc, Hall. repeat split; [lia | exact Hk].
Qed.

(** The text of a match of [struct_pattern]: the word [type], white space,
    the name, white space, the word [struct], optional white space, and the
    body between the opening brace and the first closing brace. *)
Theorem struct_match_shape (s name body rest : string) :
  match_items struct_pattern s [] = Some ([name; body], rest) ->
  exists ws1 ws2 ws3,
    s = "type" ++ ws1 ++ name ++ ws2 ++ "struct" ++ ws3 ++ "{" ++ body
        ++ "}" ++ rest
    /\ all_chars is_space ws1 = true /\ 1 <= String.length ws1
    /\ all_chars is_word name = true /\ 1 <= String.length name
    /\ all_chars is_space ws2 = true /\ 1 <= String.length ws2
    /\ all_chars is_space ws3 = true
    /\ all_chars (char_is_not "}") body = true /\ 1 <= String.length body.
Proof.
  unfold struct_pattern. cbn [match_items]. intros H.
  destruct (strip_prefix "type" s) as [s1|] eqn:E1; [|discriminate].
  apply strip_prefix_app in E1 as ->.
  apply rep_inv in H as (ws1 & s2 & -> & Hws1 & Hl1 & H).
  apply rep_inv in H as (name' & s3 & -> & Hname & Hln & H).
  apply rep_inv in H as (ws2 & s4 & -> & Hws2 & Hl2 & H).
  destruct (strip_prefix "struct" s4) as [s5|] eqn:E2; [|discriminate].
  apply strip_prefix_app in E2 as ->.
  apply rep_inv in H as (ws3 & s6 & -> & Hws3 & _ & H).
  destruct (strip_prefix "{" s6) as [s7|] eqn:E3; [|discriminate].
  apply strip_prefix_app in E3 as ->.
  apply rep_inv in H as (body' & s8 & -> & Hbody & Hlb & H).
  destruct (strip_prefix "}" s8) as [s9|] eqn:E4; [|discriminate].
  apply strip_prefix_app in E4 as ->.
  cbn [rev app] in H. injection H as <- <- <-.
  exists ws1, ws2, ws3. repeat split; assumption.
Qed.

(** The json tag found in a tag text stands in it between [json:] with a
    double quote and the next double quote. *)
Theorem json_tag_shape (tags tag : string) :
  search json_tag_pattern tags = Some [tag] ->
  exists before after,
    tags = before ++ "json:" ++ String dquote (tag ++ String dquote after)
    /\ all_chars (char_is_not dquote) tag = true.
Proof.
  induction tags as [|c tags IH]; cbn [search].
  - destruct (match_items json_tag_pattern EmptyString []) as [[g r]|] eqn:E;
      [|discriminate].
    intros [= ->]. revert E. unfold json_tag_pattern. cbn [match_items].
    destruct (strip_prefix _ EmptyString) eqn:E1; discriminate.
  - destruct (match_items json_tag_pattern (String c tags) []) as [[g r]|] eqn:E.
    + intros [= ->]. revert E. unfold json_tag_pattern. cbn [match_items].
      destruct (strip_prefix _ (String c tags)) as [s1|] eqn:E1; [|discriminate].
      apply strip_prefix_app in E1. intros H.
      apply rep_inv in H as (tag' & s2 & -> & Htag & _ & H).
      destruct (strip_prefix _ s2) as [s3|] eqn:E2; [|discriminate].
      apply strip_prefix_app in E2 as ->.
      cbn [rev app] in H. injection H as <- <-.
      exists EmptyString, s3. split; [exact E1 | exact Htag].
    + intros H. destruct (IH H) as (before & after & -> & Htag).
      exists (String c before), after. split; [reflexivity | exact Htag].
Qed.

End RegexFacts.

(** ** The struct-body field extractor *)

Module ExtractFieldsFacts.
Import PyStr Regex ExtractFields PyStrFacts.

(** *** The model at work *)

Example repetition_gives_back :
  match_items [Rep true 0 is_word; Lit "a"] "aaa" [] = Some (["aa"], "")
  /\ match_items [Rep true 1 is_word; Rep true 1 is_word] "abc" []
     = Some (["ab"; "c"], "").
Proof. split; reflexivity. Qed.

Example finditer_does_not_overlap :
  finditer struct_pattern
    ("typetype  T struct{a}type U" ++ String newline "struct"
     ++ String newline "{}}type V struct {x")
  = [["T"; "a"]].
Proof. vm_compute. reflexivity. Qed.

Example json_tag_needs_closing_quote :
  search json_tag_pattern ("xjson:" ++ String dquote "name") = None
  /\ search json_tag_pattern
       ("json:" ++ String dquote ("name,omitempty" ++ String dquote " x"))
     = Some ["name,omitempty"].
Proof. split; vm_compute; reflexivity. Qed.

Example path_join_samples :
  path_join "staging/src/k8s.io/api" ["apps"; "v1"; "types.go"]
  = "staging/src/k8s.io/api/apps/v1/types.go"
  /\ path_join "pkg/apis" [""; "types.go"] = "pkg/apis/types.go"
  /\ path_join "pkg/apis" ["/x"; "types.go"] = "/x/types.go".
Proof. repeat split. Qed.

Example pod_spec_fields :
  extract_from_content
    ("type PodSpec struct {"
     ++ String newline "  // List of volumes."
     ++ String newline "  // +optional"
     ++ String newline
          ("  Volumes []Volume `json:"
           ++ String dquote ("volumes,omitempty" ++ String dquote "`"))
     ++ String newline
          ("  Containers []Container `json:"
           ++ String dquote ("containers" ++ String dquote "`"))
     ++ String newline "  TypeMeta"
     ++ String newline "}")
    "PodSpec"
  = Ok [mkField "Volumes" "[]Volume" "volumes,omitempty" "true"
          ("json:" ++ String dquote ("volumes,omitempty" ++ String dquote ""));
        mkField "Containers" "[]Container" "containers" "false"
          ("json:" ++ String dquote ("containers" ++ String dquote ""))].
Proof. vm_compute. reflexivity. Qed.

(** *** One line at a time *)

Lemma blank_line (raw : string) (st : scan_state) :
  classify raw = Blank -> process_line raw st = Ok st.
Proof.
  unfold classify, process_line.
  destruct (is_empty (strip raw)); [reflexivity|].
  destruct (startswith (strip raw) "//"); [discriminate|].
  destruct (is_embedded _); discriminate.
Qed.

Lemma comment_line (raw : string) (st : scan_state) :
  classify raw = Comment ->
  process_line raw st
  = Ok (mkState (comment_block st ++ [strip raw])
                (if contains "+optional" (strip raw) then true
                 else is_optional st)
                (fields st)).
Proof.
  unfold classify, process_line.
  destruct (is_empty (strip raw)); [discriminate|].
  destruct (startswith (strip raw) "//"); [reflexivity|].
  destruct (is_embedded _); discriminate.
Qed.

Lemma embedded_line (raw : string) (st : scan_state) :
  classify raw = Embedded ->
  process_line raw st = Ok (mkState [] false (fields st)).
Proof.
  unfold classify, process_line.
  destruct (is_empty (strip raw)); [discriminate|].
  destruct (startswith (strip raw) "//"); [discriminate|].
  destruct (is_embedded _); [reflexivity | discriminate].
Qed.

(** A declaration line has a name token and a type token. *)
Lemma declaration_tokens (raw : string) :
  classify raw = Declaration ->
  exists name type rest, split_ws (strip raw) = name :: type :: rest.
Proof.
  unfold classify.
  destruct (strip raw) as [|c r] eqn:E; [discriminate|]. simpl is_empty.
  destruct (startswith _ _); [discriminate|].
  destruct (split_ws_head c r (strip_head _ _ _ E)) as (tok & toks & ->).
  destruct toks as [|tok' toks]; [discriminate | eauto].
Qed.

(** Reading the tags of a line never fails, backtick or not. *)
Lemma line_tags_ok (line : string) :
  exists tags, line_tags line = Ok (tags, json_tag_of tags)
    /\ (contains "`" line = false -> tags = EmptyString)
    /\ (contains "`" line = true ->
        nth_error (split_on "`" line) 1 = Some tags).
Proof.
  unfold line_tags.
  destruct (contains "`" line) eqn:E.
  - destruct (split_on_second _ _ E) as (p & p' & ps & Hs).
    exists p'. rewrite Hs. unfold index; simpl.
    repeat split; congruence.
  - exists EmptyString. repeat split; congruence.
Qed.

Lemma strip_prefix_prefix (lit s s' : string) :
  strip_prefix lit s = Some s' -> String.prefix lit s = true.
Proof.
  revert s. induction lit as [|a lit IH]; intros [|b s]; simpl;
    try discriminate; try reflexivity.
  destruct (Ascii.eqb_spec a b) as [->|Hne]; [|discriminate].
  destruct (ascii_dec b b); [apply IH | contradiction].
Qed.

(** A tag text without the text [json:] and a double quote has no json
    tag. *)
Lemma no_json_text_no_match (tags : string) :
  contains ("json:" ++ String dquote EmptyString) tags = false ->
  search json_tag_pattern tags = None.
Proof.
  induction tags as [|c tags IH]; cbn [contains]; intros H;
    apply orb_false_elim in H as [Hp Hrest]; cbn [search].
  - unfold json_tag_pattern. cbn [match_items].
    destruct (strip_prefix _ EmptyString) eqn:E; [|reflexivity].
    apply strip_prefix_prefix in E. congruence.
  - replace (match_items json_tag_pattern (String c tags) []) with
      (@None (list string * string)); [exact (IH Hrest)|].
    unfold json_tag_pattern. cbn [match_items].
    destruct (strip_prefix _ (String c tags)) eqn:E; [|reflexivity].
    apply strip_prefix_prefix in E. congruence.
Qed.

Lemma marker_in_tags (tags : string) :
  negb (is_empty tags) && contains "+optional" tags
  = contains "+optional" tags.
Proof. destruct tags; reflexivity. Qed.

(** What the loop body does with a declaration line. *)
Lemma declaration_line (raw : string) (st : scan_state) :
  classify raw = Declaration ->
  exists name type rest tags,
    split_ws (strip raw) = name :: type :: rest
    /\ line_tags (strip raw) = Ok (tags, json_tag_of tags)
    /\ process_line raw st
       = Ok (mkState [] false
               (fields st ++
                [mkField name type (json_tag_of tags)
                   (if is_optional st || contains "+optional" tags
                    then "true" else "false")
                   tags])).
Proof.
  intros H. destruct (declaration_tokens raw H) as (name & type & rest & Ht).
  destruct (line_tags_ok (strip raw)) as (tags & Hl & _).
  exists name, type, rest, tags. repeat split; try assumption.
  revert H. unfold classify, process_line.
  destruct (is_empty (strip raw)); [discriminate|].
  destruct (startswith (strip raw) "//"); [discriminate|].
  destruct (is_embedded _); [discriminate|]. intros _.
  rewrite Ht, Hl. simpl. rewrite marker_in_tags. reflexivity.
Qed.

Lemma classify_cases (raw : string) :
  classify raw = Blank \/ classify raw = Comment
  \/ classify raw = Embedded \/ classify raw = Declaration.
Proof. destruct (classify raw); auto. Qed.

(** The loop body raises nothing: [parts[0]], [parts[1]] and the [[1]] after
    the split at backticks are always in range. *)
Lemma process_line_total (raw : string) (st : scan_state) :
  exists st', process_line raw st = Ok st'.
Proof.
  destruct (classify_cases raw) as [H|[H|[H|H]]].
  - rewrite (blank_line _ _ H); eauto.
  - rewrite (comment_line _ _ H); eauto.
  - rewrite (embedded_line _ _ H); eauto.
  - destruct (declaration_line raw st H) as (? & ? & ? & ? & _ & _ & ->); eauto.
Qed.

(** The records already collected only ride along. *)
Lemma process_line_frame (raw : string) (cb : list string) (b : bool)
    (f : list FieldRecord) (st' : scan_state) (g : list FieldRecord) :
  process_line raw (mkState cb b f) = Ok st' ->
  process_line raw (mkState cb b (g ++ f))
  = Ok (mkState (comment_block st') (is_optional st') (g ++ fields st')).
Proof.
  destruct (classify_cases raw) as [H|[H|[H|H]]].
  - rewrite !(blank_line _ _ H). intros [= <-]. reflexivity.
  - rewrite !(comment_line _ _ H). intros [= <-]. reflexivity.
  - rewrite !(embedded_line _ _ H). intros [= <-]. reflexivity.
  - destruct (declaration_line raw (mkState cb b f) H)
      as (n & t & r & tg & Ht & Hl & ->).
    destruct (declaration_line raw (mkState cb b (g ++ f)) H)
      as (n' & t' & r' & tg' & Ht' & Hl' & ->).
    rewrite Ht in Ht'. injection Ht' as <- <- <-.
    rewrite Hl in Hl'. injection Hl' as <-.
    intros [= <-]. simpl. rewrite <- app_assoc. reflexivity.
Qed.

(** *** The whole body *)

Lemma lines_total (lines : list string) (st : scan_state) :
  exists st', for_each lines st process_line = Ok st'.
Proof.
  revert st; induction lines as [|raw lines IH]; intros st; simpl; [eauto|].
  destruct (process_line_total raw st) as (st1 & ->). simpl. apply IH.
Qed.

Lemma lines_frame (lines : list string) (cb : list string) (b : bool)
    (f : list FieldRecord) (st' : scan_state) (g : list FieldRecord) :
  for_each lines (mkState cb b f) process_line = Ok st' ->
  for_each lines (mkState cb b (g ++ f)) process_line
  = Ok (mkState (comment_block st') (is_optional st') (g ++ fields st')).
Proof.
  revert cb b f; induction lines as [|raw lines IH]; intros cb b f; simpl.
  - intros [= <-]. reflexivity.
  - intros H. apply bind_ok_inv in H as ([cb1 b1 f1] & H1 & H2).
    rewrite (process_line_frame _ _ _ _ _ g H1). simpl. apply IH, H2.
Qed.

(** The records of a body do not depend on what was collected before. *)
Lemma struct_body_fields_acc (struct_body : string) (acc : list FieldRecord) :
  exists found,
    struct_body_fields struct_body [] = Ok found
    /\ struct_body_fields struct_body acc = Ok (acc ++ found)%list.
Proof.
  unfold struct_body_fields.
  destruct (lines_total (split_on newline struct_body) (mkState [] false []))
    as (st & H).
  exists (fields st). rewrite H. split; [reflexivity|].
  pose proof (lines_frame _ _ _ _ _ acc H) as H'.
  rewrite app_nil_r in H'. rewrite H'. reflexivity.
Qed.

Lemma process_line_tracks (raw : string) (st st' : scan_state) :
  flag_tracks_comments st -> process_line raw st = Ok st' ->
  flag_tracks_comments st'.
Proof.
  unfold flag_tracks_comments. intros Hinv.
  destruct (classify_cases raw) as [H|[H|[H|H]]].
  - rewrite (blank_line _ _ H). intros [= <-]. exact Hinv.
  - rewrite (comment_line _ _ H). intros [= <-]. simpl.
    rewrite existsb_app, <- Hinv. simpl.
    destruct (contains "+optional" (strip raw)), (is_optional st); reflexivity.
  - rewrite (embedded_line _ _ H). intros [= <-]. reflexivity.
  - destruct (declaration_line raw st H) as (? & ? & ? & ? & _ & _ & ->).
    intros [= <-]. reflexivity.
Qed.

Lemma lines_track (lines : list string) (st st' : scan_state) :
  flag_tracks_comments st -> for_each lines st process_line = Ok st' ->
  flag_tracks_comments st'.
Proof.
  revert st; induction lines as [|raw lines IH]; intros st Hinv; simpl.
  - intros [= <-]. exact Hinv.
  - intros H. apply bind_ok_inv in H as (st1 & H1 & H2).
    exact (IH _ (process_line_tracks _ _ _ Hinv H1) H2).
Qed.

Lemma quiet_lines_keep_flag (mid : list string) (cb : list string)
    (f : list FieldRecord) :
  Forall (fun l => classify l = Blank \/ classify l = Comment) mid ->
  exists cb',
    for_each mid (mkState cb true f) process_line = Ok (mkState cb' true f).
Proof.
  intros H; revert cb; induction H as [|l mid [Hl|Hl] _ IH]; intros cb; simpl.
  - eauto.
  - rewrite (blank_line _ _ Hl). simpl. apply IH.
  - rewrite (comment_line _ _ Hl). simpl.
    destruct (contains "+optional" (strip l)); apply IH.
Qed.

(** *** The claims on the struct-body field extractor *)

(** C1, as amended: a declaration line is emitted with ['Optional'] equal to
    ["true"] exactly when a pending comment line or its tag text contains
    [+optional]; with no marker in either, the record says ["false"]. *)
Theorem C1_optional_only_when_marked (acc : list FieldRecord)
    (pre : list string) (st : scan_state) (raw : string) :
  for_each pre (mkState [] false acc) process_line = Ok st ->
  classify raw = Declaration ->
  exists r,
    process_line raw st = Ok (mkState [] false (fields st ++ [r]))
    /\ Optional r
       = (if existsb (contains "+optional") (comment_block st)
             || contains "+optional" (StructTags r)
          then "true" else "false")
    /\ (existsb (contains "+optional") (comment_block st) = false ->
        contains "+optional" (StructTags r) = false ->
        Optional r = "false").
Proof.
  intros Hpre Hdecl.
  assert (flag_tracks_comments st) as Hinv
    by (apply (lines_track pre (mkState [] false acc)); [reflexivity | exact Hpre]).
  destruct (declaration_line raw st Hdecl) as (n & t & rest & tags & _ & _ & Hp).
  eexists; split; [exact Hp|]. simpl. rewrite <- Hinv. split; [reflexivity|].
  intros Hc Ht. rewrite Hc, Ht. reflexivity.
Qed.

Lemma C1_optional_only_when_marked_witness :
  exists r,
    process_line "  Name string" (mkState [] false [])
    = Ok (mkState [] false [r])
    /\ Optional r = "false".
Proof.
  destruct (C1_optional_only_when_marked [] [] (mkState [] false [])
              "  Name string" eq_refl eq_refl) as (r & Hp & _ & Hf).
  exists r. split; [exact Hp|].
  apply Hf; [reflexivity|].
  simpl in Hp. injection Hp as <-. reflexivity.
Defined.

(** C1, as stated, fails: a field with no comment and no tag is emitted
    with ['Optional'] equal to ["false"], not ["true"]. *)
Lemma C1_unmarked_field_not_optional :
  exists r,
    extract_from_content
      ("type T struct {" ++ String newline "  Name string"
       ++ String newline "}") "T" = Ok [r]
    /\ Field r = "Name"
    /\ contains "+optional" (StructTags r) = false
    /\ Optional r = "false"
    /\ Optional r <> "true".
Proof.
  eexists. split; [vm_compute; reflexivity|].
  repeat split; discriminate.
Qed.

(** C2, as amended: the ['JSONTag'] of a declaration line is group 1 of the
    json tag pattern in its tag text; without a backtick on the line, or
    without such a pattern in the tag text, it is the empty string, which
    is never the field name. *)
Theorem C2_json_tag_empty_without_tag (raw : string) (st : scan_state) :
  classify raw = Declaration ->
  exists r,
    process_line raw st = Ok (mkState [] false (fields st ++ [r]))
    /\ nth_error (split_ws (strip raw)) 0 = Some (Field r)
    /\ JSONTag r = json_tag_of (StructTags r)
    /\ (contains "`" (strip raw) = false
        \/ search json_tag_pattern (StructTags r) = None ->
        JSONTag r = EmptyString /\ JSONTag r <> Field r).
Proof.
  intros Hdecl.
  destruct (declaration_line raw st Hdecl)
    as (n & t & rest & tags & Ht & Hl & Hp).
  eexists; split; [exact Hp|]. simpl.
  split; [rewrite Ht; reflexivity|]. split; [reflexivity|].
  assert (n <> EmptyString) as Hn.
  { pose proof (split_ws_tokens (strip raw)) as F. rewrite Ht in F.
    inversion F; assumption. }
  intros [Hb|Hs].
  - destruct (line_tags_ok (strip raw)) as (tags' & Hl' & He & _).
    rewrite Hl in Hl'. injection Hl' as -> _.
    rewrite (He Hb). split; [reflexivity|]. cbn. congruence.
  - unfold json_tag_of. rewrite Hs. split; [reflexivity | congruence].
Qed.

Lemma C2_json_tag_empty_without_tag_witness :
  exists r,
    process_line "  Name string" (mkState [] false [])
    = Ok (mkState [] false [r])
    /\ JSONTag r = EmptyString /\ JSONTag r <> Field r.
Proof.
  destruct (C2_json_tag_empty_without_tag "  Name string"
              (mkState [] false []) eq_refl) as (r & Hp & _ & _ & H).
  exists r. split; [exact Hp|]. apply H. left. reflexivity.
Defined.

(** C2, as stated, fails: a field line without a backtick is emitted with
    an empty ['JSONTag'], not with its field name. *)
Lemma C2_untagged_field_has_empty_tag :
  exists r,
    extract_from_content
      ("type T struct {" ++ String newline "  Name string"
       ++ String newline "}") "T" = Ok [r]
    /\ Field r = "Name"
    /\ JSONTag r = EmptyString
    /\ JSONTag r <> Field r.
Proof.
  eexists. split; [vm_compute; reflexivity|].
  repeat split; discriminate.
Qed.

Lemma blocks_append (struct_name : string) (ms : list (list string))
    (acc : list FieldRecord) :
  exists blocks,
    Forall2 (fun m found => struct_body_fields (group m 2) [] = Ok found)
            (filter (fun m => String.eqb (group m 1) struct_name) ms) blocks
    /\ for_each ms acc
         (fun m acc =>
            if negb (String.eqb (group m 1) struct_name) then Ok acc
            else struct_body_fields (group m 2) acc)
       = Ok (acc ++ concat blocks)%list.
Proof.
  revert acc; induction ms as [|m ms IH]; intros acc; simpl.
  - exists []. split; [constructor | now rewrite app_nil_r].
  - destruct (String.eqb (group m 1) struct_name); simpl.
    + destruct (struct_body_fields_acc (group m 2) acc) as (found & H0 & ->).
      simpl. destruct (IH (acc ++ found)%list) as (blocks & HF & ->).
      exists (found :: blocks). split; [constructor; assumption|].
      simpl. now rewrite app_assoc.
    + apply IH.
Qed.

(** The extractor raises nothing, whatever the text. *)
Lemma extract_from_content_total (content struct_name : string) :
  exists found, extract_from_content content struct_name = Ok found.
Proof.
  destruct (blocks_append struct_name (finditer struct_pattern content) [])
    as (blocks & _ & H).
  exists (concat blocks). exact H.
Qed.

(** C4, as amended: the extractor returns the records of every block
    declared with the target name, one block after the other in document
    order. *)
Theorem C4_every_block_of_that_name (content struct_name : string) :
  exists blocks,
    Forall2 (fun m found => struct_body_fields (group m 2) [] = Ok found)
            (filter (fun m => String.eqb (group m 1) struct_name)
                    (finditer struct_pattern content))
            blocks
    /\ extract_from_content content struct_name = Ok (concat blocks).
Proof.
  destruct (blocks_append struct_name (finditer struct_pattern content) [])
    as (blocks & HF & H).
  exists blocks. split; [exact HF | exact H].
Qed.

(** C4, as stated, fails: with two blocks named [T] the records of the
    second block are returned after those of the first. *)
Lemma C4_second_block_contributes :
  let content :=
    "type T struct {" ++ String newline "  A int" ++ String newline "}"
    ++ String newline "type T struct {" ++ String newline "  B string"
    ++ String newline "}" in
  let first_body := String newline "  A int" ++ String newline "" in
  let second_body := String newline "  B string" ++ String newline "" in
  let a := mkField "A" "int" "" "false" "" in
  let b := mkField "B" "string" "" "false" "" in
  finditer struct_pattern content = [["T"; first_body]; ["T"; second_body]]
  /\ struct_body_fields first_body [] = Ok [a]
  /\ extract_from_content content "T" = Ok [a; b]
  /\ extract_from_content content "T" <> Ok [a].
Proof.
  vm_compute. repeat split; discriminate.
Qed.

(** C9: on a declaration line with exactly one backtick the text after the
    backtick is the record's tag text, and reading the tag text of a line
    that contains a backtick never fails. *)
Theorem C9_single_backtick_is_a_tag (raw pre post : string) (st : scan_state) :
  classify raw = Declaration ->
  strip raw = pre ++ String "`" post ->
  contains "`" pre = false ->
  contains "`" post = false ->
  (exists r,
     process_line raw st = Ok (mkState [] false (fields st ++ [r]))
     /\ StructTags r = post)
  /\ (forall line, contains "`" line = true ->
      exists tags, line_tags line = Ok (tags, json_tag_of tags)
                   /\ nth_error (split_on "`" line) 1 = Some tags).
Proof.
  intros Hdecl Hs Hpre Hpost. split.
  - destruct (declaration_line raw st Hdecl)
      as (n & t & rest & tags & _ & Hl & Hp).
    eexists; split; [exact Hp|]. simpl.
    destruct (line_tags_ok (strip raw)) as (tags' & Hl' & He & Hn).
    rewrite Hl in Hl'. injection Hl' as -> _.
    assert (contains "`" (strip raw) = true) as Hc.
    { destruct (contains "`" (strip raw)) eqn:E; [reflexivity|].
      pose proof (split_on_none _ _ E) as Hnone.
      rewrite Hs, (split_on_once _ _ _ Hpre Hpost) in Hnone. discriminate. }
    specialize (Hn Hc). rewrite Hs, (split_on_once _ _ _ Hpre Hpost) in Hn.
    simpl in Hn. congruence.
  - intros line Hc. destruct (line_tags_ok line) as (tags & Hl & _ & Hn).
    exists tags. split; [exact Hl | exact (Hn Hc)].
Qed.

Lemma C9_single_backtick_is_a_tag_witness :
  exists r,
    process_line "  Name string `json:name " (mkState [] false [])
    = Ok (mkState [] false [r])
    /\ StructTags r = "json:name".
Proof.
  exact (proj1 (C9_single_backtick_is_a_tag "  Name string `json:name "
                  "Name string " "json:name" (mkState [] false [])
                  eq_refl eq_refl eq_refl eq_refl)).
Defined.

(** C10: a blank line leaves the pending comment block and the flag as they
    are, so a declaration that follows a comment line with [+optional],
    with only blank and comment lines in between, is emitted with
    ['Optional'] equal to ["true"]. *)
Theorem C10_blank_lines_keep_pending (acc : list FieldRecord)
    (pre mid : list string) (c f : string) (st0 : scan_state) :
  for_each pre (mkState [] false acc) process_line = Ok st0 ->
  classify c = Comment ->
  contains "+optional" (strip c) = true ->
  Forall (fun l => classify l = Blank \/ classify l = Comment) mid ->
  classify f = Declaration ->
  (forall raw st, classify raw = Blank -> process_line raw st = Ok st)
  /\ exists r st,
       for_each (pre ++ c :: mid ++ [f]) (mkState [] false acc) process_line
       = Ok st
       /\ fields st = (fields st0 ++ [r])%list
       /\ nth_error (split_ws (strip f)) 0 = Some (Field r)
       /\ Optional r = "true".
Proof.
  intros Hpre Hc Hmark Hmid Hf. split; [exact blank_line|].
  rewrite for_each_app, Hpre. cbn [bind for_each].
  rewrite (comment_line _ _ Hc), Hmark. cbn [bind].
  rewrite for_each_app.
  destruct (quiet_lines_keep_flag mid (comment_block st0 ++ [strip c])
              (fields st0) Hmid) as (cb' & ->).
  cbn [bind for_each].
  destruct (declaration_line f (mkState cb' true (fields st0)) Hf)
    as (n & t & rest & tags & Ht & _ & ->).
  cbn [bind]. do 2 eexists. split; [reflexivity|]. simpl.
  split; [reflexivity|]. split; [rewrite Ht; reflexivity | reflexivity].
Qed.

Lemma C10_blank_lines_keep_pending_witness :
  exists r st,
    for_each ["  // +optional"; ""; "  // the name"; "   "; "  Name string"]
      (mkState [] false []) process_line = Ok st
    /\ fields st = [r]
    /\ nth_error (split_ws (strip "  Name string")) 0 = Some (Field r)
    /\ Optional r = "true".
Proof.
  refine (proj2 (C10_blank_lines_keep_pending [] []
                   [""; "  // the name"; "   "] "  // +optional"
                   "  Name string" (mkState [] false [])
                   eq_refl eq_refl eq_refl _ eq_refl)).
  constructor; [left; reflexivity|].
  constructor; [right; reflexivity|].
  constructor; [left; reflexivity|].
  constructor.
Defined.

(** *** The locator *)

Lemma probe_paths_returns (fs : filesystem) (kind : string)
    (paths : list string) :
  (forall p, In p paths -> path_exists fs p = true ->
             exists content, read_text fs p = Ok content) ->
  exists found, probe_paths fs kind paths = Ok found.
Proof.
  induction paths as [|p paths IH]; intros Hread; simpl; [eauto|].
  assert (exists found, probe_paths fs kind paths = Ok found) as Hrest
    by (apply IH; intros q Hq; apply Hread; right; exact Hq).
  destruct (path_exists fs p) eqn:Hp; [|exact Hrest].
  destruct (Hread p (or_introl eq_refl) Hp) as (content & ->). simpl.
  destruct (declares kind content); eauto.
Qed.

(** The one handler of the script: a file of the broad search that does
    not decode is passed over. *)
Lemma scan_files_skips_undecodable (fs : filesystem) (kind file : string)
    (rest : list string) :
  read_text fs file = Raise UnicodeDecodeError ->
  scan_files fs kind (file :: rest) = scan_files fs kind rest.
Proof.
  intros H; simpl. rewrite H.
  destruct (contains "test" file || contains "generated" file); reflexivity.
Qed.

Lemma scan_files_returns (fs : filesystem) (kind : string)
    (files : list string) :
  (forall f, In f files ->
     contains "test" f || contains "generated" f = false ->
     (exists content, read_text fs f = Ok content)
     \/ read_text fs f = Raise UnicodeDecodeError) ->
  exists found, scan_files fs kind files = Ok found.
Proof.
  induction files as [|f files IH]; intros Hread; simpl; [eauto|].
  assert (exists found, scan_files fs kind files = Ok found) as Hrest
    by (apply IH; intros q Hq; apply Hread; right; exact Hq).
  destruct (contains "test" f || contains "generated" f) eqn:Hx;
    [exact Hrest|].
  destruct (Hread f (or_introl eq_refl) Hx) as [(content & ->)| ->];
    [|exact Hrest].
  destruct (declares kind content); eauto.
Qed.

Lemma scan_dirs_returns (fs : filesystem) (kind : string)
    (dirs : list string) :
  (forall d f, In d dirs -> In f (glob_go fs d) ->
     contains "test" f || contains "generated" f = false ->
     (exists content, read_text fs f = Ok content)
     \/ read_text fs f = Raise UnicodeDecodeError) ->
  exists found, scan_dirs fs kind dirs = Ok found.
Proof.
  induction dirs as [|d dirs IH]; intros Hread; simpl; [eauto|].
  destruct (scan_files_returns fs kind (glob_go fs d)) as (found & ->).
  { intros f Hf. apply (Hread d f); [left; reflexivity | exact Hf]. }
  simpl. destruct found; [eauto|].
  apply IH. intros d' f Hd. apply Hread. right; exact Hd.
Qed.

(** C3, as amended: a file of the broad search that fails to decode as
    text is passed over and the search goes on; and when the directory
    listings of the expected-path probe succeed, every expected file that
    exists reads as text and no file of the broad search fails other than
    by not decoding, the locator returns a path or not-found. *)
Theorem C3_locator_returns_when_reads_succeed (fs : filesystem)
    (api_group kind : string) (paths : list string) :
  expected_paths fs api_group = Ok paths ->
  (forall p, In p paths -> path_exists fs p = true ->
             exists content, read_text fs p = Ok content) ->
  (forall d f, In d api_dirs -> In f (glob_go fs d) ->
     contains "test" f || contains "generated" f = false ->
     (exists content, read_text fs f = Ok content)
     \/ read_text fs f = Raise UnicodeDecodeError) ->
  (exists found, find_struct_file fs api_group kind = Ok found)
  /\ (forall file rest,
        read_text fs file = Raise UnicodeDecodeError ->
        scan_files fs kind (file :: rest) = scan_files fs kind rest).
Proof.
  intros Hpaths Hprobe Hscan. split.
  - unfold find_struct_file. rewrite Hpaths. cbn [bind].
    destruct (probe_paths_returns fs kind paths Hprobe) as (found & ->).
    cbn [bind]. destruct found; [eauto|].
    apply scan_dirs_returns, Hscan.
  - intros file rest. apply scan_files_skips_undecodable.
Qed.

Lemma C3_locator_returns_when_reads_succeed_witness :
  let fs :=
    mkFS (fun _ => Ok []) (fun _ => false) (fun _ => false)
         (fun p => if String.eqb p "pkg/apis/apps/blob.go"
                   then Raise UnicodeDecodeError
                   else Ok "type Deployment struct { Spec DeploymentSpec }")
         (fun d => if String.eqb d "pkg/apis"
                   then ["pkg/apis/apps/blob.go"; "pkg/apis/apps/types.go"]
                   else []) in
  find_struct_file fs "apps" "Deployment" = Ok (Some "pkg/apis/apps/types.go")
  /\ exists found, find_struct_file fs "apps" "Deployment" = Ok found.
Proof.
  intros fs. split; [vm_compute; reflexivity|].
  refine (proj1 (C3_locator_returns_when_reads_succeed fs "apps" "Deployment"
                   [] eq_refl _ _)).
  - intros p [].
  - intros d f _ _ _. simpl.
    destruct (String.eqb f "pkg/apis/apps/blob.go"); eauto.
Defined.

(** C3, as stated, fails: with a named group and no [pkg/apis] directory
    the listing raises out of the locator and stops the run before the next
    input, with no row written; and an expected file that does not decode
    raises as well. *)
Lemma C3_missing_root_aborts_run :
  let no_tree :=
    mkFS (fun _ => Raise OSError) (fun _ => false) (fun _ => false)
         (fun _ => Raise OSError) (fun _ => []) in
  let binary_core :=
    mkFS (fun _ => Ok []) (String.eqb "pkg/apis/core/types.go")
         (fun _ => false) (fun _ => Raise UnicodeDecodeError) (fun _ => []) in
  find_struct_file no_tree "apps" "Deployment" = Raise OSError
  /\ main_loop no_tree [("apps", "Deployment"); ("", "Pod")]
     = Stopped [] OSError
  /\ find_struct_file no_tree "" "Pod" = Ok None
  /\ find_struct_file binary_core "" "Pod" = Raise UnicodeDecodeError
  /\ main_loop binary_core [("", "Pod")] = Stopped [] UnicodeDecodeError.
Proof.
  vm_compute. repeat split.
Qed.

End ExtractFieldsFacts.

(** ** The schema-tree field extractor *)

Module ExtractOpenapiFieldsFacts.
Import PyStr ExtractOpenapiFields.

(** *** The model at work *)

Example deployment_schema_fields :
  get_fields_from_schema (fun _ => EmptyString) "apps" "Deployment" 4
    (JObj
       [("properties",
         JObj
           [("apiVersion", JObj [("type", JStr "string")]);
            ("kind", JObj [("type", JStr "string")]);
            ("metadata",
             JObj [("allOf",
                    JArr [JObj [("$ref",
                                 JStr "#/components/schemas/ObjectMeta")]])]);
            ("spec",
             JObj
               [("description", JStr "the spec");
                ("properties",
                 JObj
                   [("replicas", JObj [("type", JStr "integer")]);
                    ("kind", JObj [("type", JStr "string")]);
                    ("ports",
                     JObj [("type", JStr "array");
                           ("items",
                            JObj [("properties",
                                   JObj [("name",
                                          JObj [("type", JStr "string")])])])])]);
                ("required", JArr [JStr "replicas"])])]);
        ("required", JArr [JStr "spec"])])
    "" []
  = Ok [mkField "apps" "Deployment" "metadata" (JStr "ObjectMeta") "metadata"
          "true" (JStr "");
        mkField "apps" "Deployment" "spec" (JStr "") "spec" "false"
          (JStr "the spec");
        mkField "apps" "Deployment" "spec.replicas" (JStr "integer")
          "replicas" "false" (JStr "");
        mkField "apps" "Deployment" "spec.kind" (JStr "string") "kind" "true"
          (JStr "");
        mkField "apps" "Deployment" "spec.ports" (JStr "array of ") "ports"
          "true" (JStr "");
        mkField "apps" "Deployment" "spec.ports[].name" (JStr "string") "name"
          "true" (JStr "")].
Proof. vm_compute. reflexivity. Qed.

Example walk_raises_what_python_raises :
  get_fields_from_schema (fun _ => EmptyString) "" "" 4
    (JObj [("properties", JArr [])]) "" [] = Raise AttributeError
  /\ get_fields_from_schema (fun _ => EmptyString) "" "" 4
       (JObj [("properties", JObj [("a", JObj [("$ref", JInt 3)])])]) "" []
     = Raise AttributeError
  /\ get_fields_from_schema (fun _ => EmptyString) "" "" 4
       (JObj [("properties", JObj [("a", JObj [])]); ("required", JNull)])
       "" []
     = Raise TypeError
  /\ get_fields_from_schema (fun _ => EmptyString) "" "" 1
       (JObj [("properties",
               JObj [("a", JObj [("properties", JObj [])])])]) "" []
     = Raise RecursionError.
Proof. repeat split. Qed.

(** *** Loops that only append *)

Lemma framed_extends {R : Type} (f : list R -> result (list R))
    (acc out : list R) :
  framed f -> f acc = Ok out ->
  exists added, f [] = Ok added /\ out = (acc ++ added)%list.
Proof.
  intros Hf H. rewrite (Hf acc) in H.
  destruct (f []) as [added|e]; simpl in H; [|discriminate].
  injection H as <-. eauto.
Qed.

Lemma for_each_framed {A R : Type} (xs : list A)
    (body : A -> list R -> result (list R)) :
  (forall x, framed (body x)) -> framed (fun acc => for_each xs acc body).
Proof.
  intros Hbody. induction xs as [|x xs IH]; intros acc; simpl.
  - now rewrite app_nil_r.
  - rewrite (Hbody x acc).
    destruct (body x []) as [a1|e]; simpl; [|reflexivity].
    rewrite (IH (acc ++ a1)%list), (IH a1).
    destruct (for_each xs [] body) as [a2|e]; simpl; [|reflexivity].
    now rewrite app_assoc.
Qed.

(** Whatever one iteration leaves in the list is still there at the end. *)
Lemma for_each_in {A R : Type} (xs : list A)
    (body : A -> list R -> result (list R)) (acc out : list R) (x : A) :
  (forall y, framed (body y)) ->
  for_each xs acc body = Ok out -> In x xs ->
  exists before after,
    body x before = Ok after /\ incl acc before /\ incl after out.
Proof.
  intros Hbody. revert acc. induction xs as [|y xs IH]; intros acc H Hx.
  - destruct Hx.
  - simpl in H. apply bind_ok_inv in H as (mid & Hy & Hrest).
    assert (incl mid out) as Hmid.
    { destruct (framed_extends _ _ _ (for_each_framed xs body Hbody) Hrest)
        as (added & _ & ->). apply incl_appl, incl_refl. }
    destruct Hx as [->|Hx].
    + exists acc, mid. split; [exact Hy|]. split; [apply incl_refl | exact Hmid].
    + destruct (IH mid Hrest Hx) as (before & after & Hb & Hi & Ho).
      exists before, after. split; [exact Hb|]. split; [|exact Ho].
      destruct (framed_extends _ _ _ (Hbody y) Hy) as (added & _ & ->).
      intros r Hr. apply Hi, in_or_app. left; exact Hr.
Qed.

Section WalkerFacts.

Variable py_str : json -> string.
Variables api_group kind : string.

Local Abbreviation walk := (get_fields_from_schema py_str api_group kind).
Local Abbreviation record_of := (property_record py_str api_group kind).
Local Abbreviation process := (process_property py_str api_group kind).

Lemma process_property_framed
    (recurse : json -> string -> list FieldRecord -> result (list FieldRecord))
    (schema : json) (path : string) (prop : string * json) :
  (forall s p, framed (recurse s p)) ->
  framed (process recurse schema path prop).
Proof.
  intros Hrec acc. unfold process_property. destruct prop as [n d].
  destruct (is_envelope n && String.eqb path ""); simpl;
    [now rewrite app_nil_r|].
  destruct (record_of schema path n d) as [r|e]; simpl; [|reflexivity].
  destruct (py_in "properties" d) as [[|]|e]; simpl; [| |reflexivity].
  - rewrite (Hrec d _ (acc ++ [r])%list), (Hrec d _ [r]).
    destruct (recurse d _ []); simpl; [|reflexivity].
    now rewrite <- app_assoc.
  - destruct (py_in "allOf" d) as [[|]|e]; simpl; [| |reflexivity].
    + destruct (py_getitem d "allOf") as [all_of|e]; simpl; [|reflexivity].
      destruct (py_iter all_of) as [subs|e]; simpl; [|reflexivity].
      match goal with
      | |- for_each _ _ ?b = _ =>
          assert (forall x, framed (b x)) as Hb
      end.
      { intros sub acc'. simpl.
        destruct (py_in "properties" sub) as [[|]|e]; simpl.
        - apply Hrec.
        - now rewrite app_nil_r.
        - reflexivity. }
      rewrite (for_each_framed subs _ Hb (acc ++ [r])%list).
      rewrite (for_each_framed subs _ Hb [r]).
      destruct (for_each subs [] _); simpl; [|reflexivity].
      now rewrite <- app_assoc.
    + destruct (items_have_properties d) as [[|]|e]; simpl; [| |reflexivity].
      * destruct (py_getitem d "items") as [items|e]; simpl; [|reflexivity].
        rewrite (Hrec items _ (acc ++ [r])%list), (Hrec items _ [r]).
        destruct (recurse items _ []); simpl; [|reflexivity].
        now rewrite <- app_assoc.
      * reflexivity.
Qed.

(** The walker only appends to [fields]. *)
Lemma walk_framed (limit : nat) (schema : json) (path : string) :
  framed (walk limit schema path).
Proof.
  revert schema path. induction limit as [|limit IH]; intros schema path acc.
  - reflexivity.
  - simpl.
    destruct (py_get schema "properties" (JObj [])) as [properties|e];
      simpl; [|reflexivity].
    destruct (py_items properties) as [props|e]; simpl; [|reflexivity].
    apply (for_each_framed props
             (process (walk limit) schema path)).
    intros prop. apply process_property_framed. exact IH.
Qed.

Lemma walk_extends (limit : nat) (schema : json) (path : string)
    (acc out : list FieldRecord) :
  walk limit schema path acc = Ok out -> incl acc out.
Proof.
  intros H.
  destruct (framed_extends _ _ _ (walk_framed limit schema path) H)
    as (added & _ & ->).
  apply incl_appl, incl_refl.
Qed.

(** *** Every property of a visited level is processed *)

Lemma level_property (limit : nat) (schema : json) (path : string)
    (acc out : list FieldRecord) (props : list (string * json))
    (prop : string * json) :
  walk limit schema path acc = Ok out ->
  py_get schema "properties" (JObj []) = Ok (JObj props) ->
  In prop props ->
  exists limit' before after,
    limit = S limit'
    /\ process (walk limit') schema path prop before = Ok after
    /\ incl after out.
Proof.
  destruct limit as [|limit']; [discriminate|]. simpl.
  intros H Hprops Hin. rewrite Hprops in H. simpl in H.
  destruct (for_each_in props _ acc out prop
              (fun y => process_property_framed (walk limit') schema path y
                          (walk_framed limit'))
              H Hin) as (before & after & Hb & _ & Ho).
  exists limit', before, after. auto.
Qed.

Lemma record_fields (schema : json) (path n : string) (d : json)
    (r : FieldRecord) :
  record_of schema path n d = Ok r ->
  exists description required field_type,
    py_get d "description" (JStr "") = Ok description
    /\ is_required schema n = Ok required
    /\ field_type_of py_str d = Ok field_type
    /\ r = mkField api_group kind (join_path path n) field_type n
                   (if required then "false" else "true") description.
Proof.
  unfold property_record. intros H.
  apply bind_ok_inv in H as (description & Hd & H).
  apply bind_ok_inv in H as (required & Hr & H).
  apply bind_ok_inv in H as (field_type & Ht & H).
  injection H as <-. exists description, required, field_type. auto.
Qed.

(** What one iteration that is not skipped leaves behind. *)
Lemma processed_property
    (recurse : json -> string -> list FieldRecord -> result (list FieldRecord))
    (schema : json) (path n : string) (d : json)
    (before after : list FieldRecord) :
  (forall s p, framed (recurse s p)) ->
  is_envelope n && String.eqb path "" = false ->
  process recurse schema path (n, d) before = Ok after ->
  exists r,
    record_of schema path n d = Ok r
    /\ In r after
    /\ (py_in "properties" d = Ok true ->
        recurse d (join_path path n) (before ++ [r])%list = Ok after)
    /\ (forall all_of subs sub,
          py_in "properties" d = Ok false ->
          py_in "allOf" d = Ok true ->
          py_getitem d "allOf" = Ok all_of ->
          py_iter all_of = Ok subs ->
          In sub subs ->
          py_in "properties" sub = Ok true ->
          exists acc' out',
            recurse sub (join_path path n) acc' = Ok out' /\ incl out' after)
    /\ (forall items,
          py_in "properties" d = Ok false ->
          py_in "allOf" d = Ok false ->
          items_have_properties d = Ok true ->
          py_getitem d "items" = Ok items ->
          recurse items (join_path path n ++ "[]") (before ++ [r])%list
          = Ok after).
Proof.
  intros Hrec Hskip. unfold process_property. rewrite Hskip.
  intros H. apply bind_ok_inv in H as (r & Hr & H).
  exists r. split; [exact Hr|].
  assert (In r (before ++ [r])%list) as Hin
    by (apply in_or_app; right; left; reflexivity).
  apply bind_ok_inv in H as (hp & Hp & H). destruct hp.
  { split.
    - destruct (framed_extends _ _ _ (Hrec d _) H) as (added & _ & ->).
      apply in_or_app. left; exact Hin.
    - split; [intros _; exact H|].
      split; intros; congruence. }
  apply bind_ok_inv in H as (ha & Ha & H). destruct ha.
  { apply bind_ok_inv in H as (all_of & Hall & H).
    apply bind_ok_inv in H as (subs & Hsubs & H).
    match type of H with
    | for_each _ _ ?b = _ => assert (forall x, framed (b x)) as Hb
    end.
    { intros sub acc'. simpl.
      destruct (py_in "properties" sub) as [[|]|e]; simpl.
      - apply Hrec.
      - now rewrite app_nil_r.
      - reflexivity. }
    split.
    - destruct (framed_extends _ _ _ (for_each_framed subs _ Hb) H)
        as (added & _ & ->).
      apply in_or_app. left; exact Hin.
    - split; [congruence|]. split; [|intros; congruence].
      intros all_of' subs' sub _ _ Hall' Hsubs' Hsub Hsp.
      rewrite Hall in Hall'. injection Hall' as <-.
      rewrite Hsubs in Hsubs'. injection Hsubs' as <-.
      destruct (for_each_in subs _ _ _ sub Hb H Hsub)
        as (acc' & out' & Hcall & _ & Hincl).
      simpl in Hcall. rewrite Hsp in Hcall. simpl in Hcall.
      exists acc', out'. auto. }
  apply bind_ok_inv in H as (hi & Hi & H). destruct hi.
  - apply bind_ok_inv in H as (items & Hitems & H).
    split.
    + destruct (framed_extends _ _ _ (Hrec items _) H) as (added & _ & ->).
      apply in_or_app. left; exact Hin.
    + split; [congruence|]. split; [intros; congruence|].
      intros items' _ _ _ Hitems'. rewrite Hitems in Hitems'.
      injection Hitems' as <-. exact H.
  - injection H as <-. split; [exact Hin|].
    split; [congruence|]. split; intros; congruence.
Qed.

(** The output of a nested call is part of the output of the call that
    made it. *)
Lemma calls_included (limit : nat) (schema : json) (path : string)
    (acc out : list FieldRecord) (schema' : json) (path' : string) :
  walk limit schema path acc = Ok out ->
  calls schema path schema' path' ->
  exists limit' acc' out',
    walk limit' schema' path' acc' = Ok out' /\ incl out' out.
Proof.
  intros H Hc.
  destruct Hc as [props n d Hprops Hin Hskip Hp
                 |props n d all_of subs sub Hprops Hin Hskip Hp Ha Hall Hsubs
                    Hsub Hsp
                 |props n d items Hprops Hin Hskip Hp Ha Hi Hitems];
    destruct (level_property _ _ _ _ _ _ _ H Hprops Hin)
      as (limit' & before & after & _ & Hproc & Hincl);
    destruct (processed_property _ _ _ _ _ _ _ (walk_framed limit') Hskip Hproc)
      as (r & _ & _ & Hprop & Hall_of & Hit).
  - exists limit', (before ++ [r])%list, after. auto.
  - destruct (Hall_of all_of subs sub Hp Ha Hall Hsubs Hsub Hsp)
      as (acc' & out' & Hcall & Hincl').
    exists limit', acc', out'. split; [exact Hcall|].
    intros x Hx. apply Hincl, Hincl', Hx.
  - exists limit', (before ++ [r])%list, after. auto.
Qed.

Lemma visits_included (limit : nat) (root : json) (prefix : string)
    (acc out : list FieldRecord) (schema : json) (path : string) :
  walk limit root prefix acc = Ok out ->
  visits root prefix schema path ->
  exists limit' acc' out',
    walk limit' schema path acc' = Ok out' /\ incl out' out.
Proof.
  intros H Hv. induction Hv as [|s p s' p' _ IH Hc].
  - exists limit, acc, out. split; [exact H | apply incl_refl].
  - destruct IH as (l1 & a1 & o1 & H1 & I1).
    destruct (calls_included _ _ _ _ _ _ _ H1 Hc) as (l2 & a2 & o2 & H2 & I2).
    exists l2, a2, o2. split; [exact H2|].
    intros x Hx. apply I1, I2, Hx.
Qed.

(** Every property of every visited level that is not skipped has its
    record in the output. *)
Lemma visited_property_emitted (limit : nat) (root : json) (prefix : string)
    (acc out : list FieldRecord) (schema : json) (path : string)
    (props : list (string * json)) (n : string) (d : json) :
  walk limit root prefix acc = Ok out ->
  visits root prefix schema path ->
  py_get schema "properties" (JObj []) = Ok (JObj props) ->
  In (n, d) props ->
  is_envelope n && String.eqb path "" = false ->
  exists r, record_of schema path n d = Ok r /\ In r out.
Proof.
  intros H Hv Hprops Hin Hskip.
  destruct (visits_included _ _ _ _ _ _ _ H Hv) as (l1 & a1 & o1 & H1 & I1).
  destruct (level_property _ _ _ _ _ _ _ H1 Hprops Hin)
    as (limit' & before & after & _ & Hproc & Hincl).
  destruct (processed_property _ _ _ _ _ _ _ (walk_framed limit') Hskip Hproc)
    as (r & Hr & Hra & _).
  exists r. split; [exact Hr|]. apply I1, Hincl, Hra.
Qed.

(** *** Required and optional *)





(** *** The envelope properties *)

Lemma for_each_ext {A S : Type} (xs : list A) (s : S)
    (body body' : A -> S -> result S) :
  (forall x s, body x s = body' x s) ->
  for_each xs s body = for_each xs s body'.
Proof.
  intros Hb. revert s. induction xs as [|x xs IH]; intros s; simpl.
  - reflexivity.
  - rewrite Hb. destruct (body' x s); simpl; [apply IH | reflexivity].
Qed.

Lemma lookup_without_envelope (key : string) (m : list (string * json)) :
  String.eqb key "properties" = false ->
  lookup key (without_envelope m) = lookup key m.
Proof.
  intros Hk. rewrite String.eqb_sym in Hk.
  induction m as [|[k v] m IH]; [reflexivity|]. cbn [without_envelope].
  destruct (String.eqb_spec k "properties") as [->|Hne]; cbn [lookup].
  - rewrite Hk. reflexivity.
  - rewrite IH. reflexivity.
Qed.

Lemma properties_without_envelope (m : list (string * json)) :
  lookup "properties" (without_envelope m)
  = match lookup "properties" m with
    | Some (JObj props) =>
        Some (JObj (filter (fun kv => negb (is_envelope (fst kv))) props))
    | other => other
    end.
Proof.
  induction m as [|[k v] m IH]; [reflexivity|]. cbn [without_envelope].
  destruct (String.eqb_spec k "properties") as [->|Hne]; cbn [lookup].
  - rewrite String.eqb_refl. destruct v; reflexivity.
  - destruct (String.eqb_spec k "properties"); [contradiction | exact IH].
Qed.

(** Only the [required] entry of the schema matters to one iteration. *)
Lemma process_without_envelope
    (recurse : json -> string -> list FieldRecord -> result (list FieldRecord))
    (m : list (string * json)) (path : string) (prop : string * json)
    (fields : list FieldRecord) :
  process recurse (JObj (without_envelope m)) path prop fields
  = process recurse (JObj m) path prop fields.
Proof.
  unfold process_property, property_record, is_required. simpl.
  rewrite (lookup_without_envelope "required" m eq_refl). reflexivity.
Qed.

Lemma skip_envelope_entries
    (recurse : json -> string -> list FieldRecord -> result (list FieldRecord))
    (schema : json) (props : list (string * json))
    (fields : list FieldRecord) :
  for_each (filter (fun kv => negb (is_envelope (fst kv))) props) fields
    (process recurse schema "")
  = for_each props fields (process recurse schema "").
Proof.
  revert fields. induction props as [|[n d] props IH]; intros fields;
    [reflexivity|].
  cbn [filter fst]. destruct (is_envelope n) eqn:E; cbn [negb].
  - rewrite IH. cbn [for_each]. unfold process_property at 2.
    rewrite E. reflexivity.
  - cbn [for_each].
    destruct (process recurse schema "" (n, d) fields); simpl;
      [apply IH | reflexivity].
Qed.

(** At the empty prefix the walk does not see the envelope properties. *)
Lemma walk_without_envelope (limit : nat) (m : list (string * json))
    (fields : list FieldRecord) :
  walk limit (JObj (without_envelope m)) "" fields
  = walk limit (JObj m) "" fields.
Proof.
  destruct limit as [|limit]; [reflexivity|]. simpl.
  rewrite properties_without_envelope.
  destruct (lookup "properties" m) as [v|]; simpl.
  - destruct v; simpl; try reflexivity.
    rewrite (for_each_ext _ _ _ _
               (process_without_envelope (walk limit) m "")).
    apply skip_envelope_entries.
  - reflexivity.
Qed.

Lemma join_path_nonempty (path n : string) :
  path <> EmptyString -> join_path path n = path ++ "." ++ n.
Proof.
  intros H. unfold join_path. now rewrite (PyStrFacts.is_empty_false _ H).
Qed.

Lemma not_skipped_below (path n : string) :
  path <> EmptyString -> is_envelope n && String.eqb path "" = false.
Proof.
  intros H. destruct (String.eqb_spec path ""); [contradiction|].
  apply andb_false_r.
Qed.

(** C6: at the empty prefix the walk gives what it gives on the schema
    without its [apiVersion] and [kind] properties, so neither is emitted
    or descended into; at a non-empty prefix a property of either name has
    its record in the output, and so have the properties nested in it. *)
Theorem C6_envelope_skipped_only_at_empty_prefix (limit : nat) (root : json)
    (prefix : string) (acc out : list FieldRecord) (schema : json)
    (path : string) (props : list (string * json)) (n : string) (d : json) :
  walk limit root prefix acc = Ok out ->
  visits root prefix schema path ->
  py_get schema "properties" (JObj []) = Ok (JObj props) ->
  In (n, d) props ->
  is_envelope n = true ->
  path <> EmptyString ->
  (exists r,
     In r out /\ Field r = path ++ "." ++ n /\ JSONTag r = n
     /\ forall dm dprops n' d',
          d = JObj dm ->
          lookup "properties" dm = Some (JObj dprops) ->
          In (n', d') dprops ->
          exists r',
            In r' out /\ Field r' = (path ++ "." ++ n) ++ "." ++ n'
            /\ JSONTag r' = n')
  /\ (forall l m fields,
        walk l (JObj m) "" fields
        = walk l (JObj (without_envelope m)) "" fields).
Proof.
  intros H Hv Hprops Hin Henv Hpath.
  split; [|intros; symmetry; apply walk_without_envelope].
  pose proof (not_skipped_below path n Hpath) as Hskip.
  destruct (visited_property_emitted _ _ _ _ _ _ _ _ _ _ H Hv Hprops Hin Hskip)
    as (r & Hr & Hout).
  destruct (record_fields _ _ _ _ _ Hr) as (ds & rq & ty & _ & _ & _ & ->).
  eexists. split; [exact Hout|]. cbn [Field JSONTag].
  split; [apply join_path_nonempty, Hpath|]. split; [reflexivity|].
  intros dm dprops n' d' -> Hdprops Hin'.
  assert (visits root prefix (JObj dm) (join_path path n)) as Hv'.
  { apply (visits_deeper _ _ _ _ _ _ Hv).
    apply (calls_properties _ _ props n (JObj dm)); try assumption.
    simpl. rewrite Hdprops. reflexivity. }
  rewrite (join_path_nonempty _ _ Hpath) in Hv'.
  assert (path ++ "." ++ n <> EmptyString) as Hne
    by apply PyStrFacts.append_nonempty.
  destruct (visited_property_emitted _ _ _ _ _ _ _ dprops n' d' H Hv')
    as (r' & Hr' & Hout'); try assumption.
  { simpl. rewrite Hdprops. reflexivity. }
  { apply not_skipped_below, Hne. }
  destruct (record_fields _ _ _ _ _ Hr') as (ds' & rq' & ty' & _ & _ & _ & ->).
  eexists. split; [exact Hout'|]. cbn [Field JSONTag].
  split; [apply join_path_nonempty, Hne | reflexivity].
Qed.

(** *** The members of allOf *)

(** C7, as amended: the properties of an [allOf] member are walked at the
    path of the property that holds the [allOf], the same for every
    member: a property [q] of a member has a record whose path is that path,
    a dot and [q] when that path is not empty, and [q] alone when it is
    empty (the property named by the empty string at the empty prefix). *)
Theorem C7_allOf_members_share_the_path (limit : nat) (root : json)
    (prefix : string) (acc out : list FieldRecord) (schema : json)
    (path : string) (props : list (string * json)) (n : string)
    (dm : list (string * json)) (members : list json)
    (mm mprops : list (string * json)) (q : string) (qd : json) :
  walk limit root prefix acc = Ok out ->
  visits root prefix schema path ->
  py_get schema "properties" (JObj []) = Ok (JObj props) ->
  In (n, JObj dm) props ->
  is_envelope n && String.eqb path "" = false ->
  lookup "properties" dm = None ->
  lookup "allOf" dm = Some (JArr members) ->
  In (JObj mm) members ->
  lookup "properties" mm = Some (JObj mprops) ->
  In (q, qd) mprops ->
  is_envelope q && String.eqb (join_path path n) "" = false ->
  exists r,
    In r out /\ JSONTag r = q
    /\ Field r = join_path (join_path path n) q
    /\ (join_path path n <> EmptyString ->
        Field r = join_path path n ++ "." ++ q)
    /\ (join_path path n = EmptyString -> Field r = q).
Proof.
  intros H Hv Hprops Hin Hskip Hnp Hall Hmem Hmp Hq Hskip'.
  assert (visits root prefix (JObj mm) (join_path path n)) as Hv'.
  { apply (visits_deeper _ _ _ _ _ _ Hv).
    apply (calls_allOf _ _ props n (JObj dm) (JArr members) members (JObj mm));
      try assumption; simpl.
    - rewrite Hnp. reflexivity.
    - rewrite Hall. reflexivity.
    - rewrite Hall. reflexivity.
    - reflexivity.
    - rewrite Hmp. reflexivity. }
  destruct (visited_property_emitted _ _ _ _ _ _ _ mprops q qd H Hv')
    as (r & Hr & Hout); try assumption.
  { simpl. rewrite Hmp. reflexivity. }
  destruct (record_fields _ _ _ _ _ Hr) as (ds & rq & ty & _ & _ & _ & ->).
  eexists. split; [exact Hout|]. cbn [Field JSONTag].
  split; [reflexivity|]. split; [reflexivity|]. split.
  - apply join_path_nonempty.
  - intros ->. reflexivity.
Qed.

(** *** Array types *)

Lemma ref_name_final_segment (ref : string) :
  ref_name (JStr ref) = Ok (JStr (final_segment ref)).
Proof.
  unfold ref_name.
  assert (index_last (split_on "/" ref) = Ok (final_segment ref)) as ->;
    [|reflexivity].
  induction ref as [|c s IH]; [reflexivity|].
  cbn [split_on final_segment].
  destruct (Ascii.eqb c "/") eqn:Ec; cbn [orb].
  - destruct (PyStrFacts.split_on_cons "/" s) as (p & ps & E).
    rewrite E in *. rewrite PyStrFacts.index_last_cons. exact IH.
  - destruct (contains "/" s) eqn:Es.
    + destruct (PyStrFacts.split_on_second _ _ Es) as (p & p' & ps & E).
      rewrite E in *. rewrite PyStrFacts.index_last_cons.
      rewrite PyStrFacts.index_last_cons in IH. exact IH.
    + rewrite (PyStrFacts.split_on_none _ _ Es). reflexivity.
Qed.


(** The type of a property itself is named the same way, unless it is an
    array with [items], which is the case of C8. *)
Lemma field_type_named (m : list (string * json)) (name : string) :
  named_type (JObj m) name ->
  (lookup "type" m = Some (JStr "array") -> lookup "items" m = None) ->
  field_type_of py_str (JObj m) = Ok (JStr name).
Proof.
  intros Hnamed Harr. inversion Hnamed as
    [m' ref Href|m' first rest ref Href Hall Hfirst|m' t Href Hall Ht]; subst;
    unfold field_type_of; cbn [py_in bind]; rewrite Href; cbn [bind].
  - cbn [py_getitem]. rewrite Href. cbn [bind]. apply ref_name_final_segment.
  - unfold has_allOf_ref, allOf_ref_name. cbn [py_in py_getitem bind].
    rewrite Hall. cbn [bind negb truthy py_getitem0 py_in].
    rewrite Hfirst. cbn [bind py_getitem]. rewrite Hfirst. cbn [bind].
    apply ref_name_final_segment.
  - rewrite Hall. cbn [bind py_in py_getitem]. rewrite Ht. cbn [bind is_str].
    destruct (String.eqb_spec name "array") as [->|Hne]; [|reflexivity].
    cbn [py_in]. rewrite (Harr Ht). reflexivity.
Qed.


(** *** The recursion limit

    [RecursionError] comes from the nesting of the document only: a limit
    above the depth of the schema is never hit, and a limit that is not hit
    has no influence on the result. *)

Lemma bind_not_recursion {A B : Type} (m : result A) (k : A -> result B) :
  m <> Raise RecursionError ->
  (forall a, m = Ok a -> k a <> Raise RecursionError) ->
  (x <- m ;; k x) <> Raise RecursionError.
Proof.
  destruct m as [a|e]; simpl; intros Hm Hk; [apply Hk; reflexivity|].
  congruence.
Qed.

Lemma for_each_not_recursion {A S : Type} (xs : list A) (s : S)
    (body : A -> S -> result S) :
  (forall x s', In x xs -> body x s' <> Raise RecursionError) ->
  for_each xs s body <> Raise RecursionError.
Proof.
  revert s. induction xs as [|x xs IH]; intros s Hb; simpl; [discriminate|].
  apply bind_not_recursion.
  - apply Hb. left; reflexivity.
  - intros s' _. apply IH. intros y s'' Hy. apply Hb. right; exact Hy.
Qed.

Ltac lookups_only :=
  repeat first
    [ discriminate
    | apply bind_not_recursion; [|intros ? _]
    | match goal with
      | |- (if ?b then _ else _) <> _ => destruct b
      | |- match ?x with _ => _ end <> _ => destruct x
      end ].

Lemma py_in_not_recursion (key : string) (c : json) :
  py_in key c <> Raise RecursionError.
Proof. unfold py_in. lookups_only. Qed.

Lemma py_getitem_not_recursion (c : json) (key : string) :
  py_getitem c key <> Raise RecursionError.
Proof. unfold py_getitem. lookups_only. Qed.

Lemma py_iter_not_recursion (c : json) :
  py_iter c <> Raise RecursionError.
Proof. unfold py_iter. lookups_only. Qed.

Lemma ref_name_not_recursion (ref : json) :
  ref_name ref <> Raise RecursionError.
Proof. unfold ref_name, index_last. lookups_only. Qed.

Lemma has_allOf_ref_not_recursion (d : json) :
  has_allOf_ref d <> Raise RecursionError.
Proof.
  unfold has_allOf_ref.
  apply bind_not_recursion; [apply py_in_not_recursion|]. intros [|] _;
    [|discriminate].
  apply bind_not_recursion; [apply py_getitem_not_recursion|]. intros a _.
  destruct (negb (truthy a)); [discriminate|].
  apply bind_not_recursion; [|intros; apply py_in_not_recursion].
  unfold py_getitem0. lookups_only.
Qed.

Lemma allOf_ref_name_not_recursion (d : json) :
  allOf_ref_name d <> Raise RecursionError.
Proof.
  unfold allOf_ref_name.
  apply bind_not_recursion; [apply py_getitem_not_recursion|]. intros a _.
  apply bind_not_recursion; [unfold py_getitem0; lookups_only|]. intros f _.
  apply bind_not_recursion; [apply py_getitem_not_recursion|]. intros r _.
  apply ref_name_not_recursion.
Qed.

Lemma item_type_of_not_recursion (items : json) :
  item_type_of items <> Raise RecursionError.
Proof.
  unfold item_type_of.
  apply bind_not_recursion; [apply py_in_not_recursion|]. intros [|] _.
  { apply bind_not_recursion; [apply py_getitem_not_recursion|].
    intros; apply ref_name_not_recursion. }
  apply bind_not_recursion; [apply has_allOf_ref_not_recursion|].
  intros [|] _; [apply allOf_ref_name_not_recursion|].
  apply bind_not_recursion; [apply py_in_not_recursion|]. intros [|] _;
    [apply py_getitem_not_recursion | discriminate].
Qed.

Lemma field_type_of_not_recursion (d : json) :
  field_type_of py_str d <> Raise RecursionError.
Proof.
  unfold field_type_of.
  apply bind_not_recursion; [apply py_in_not_recursion|]. intros [|] _.
  { apply bind_not_recursion; [apply py_getitem_not_recursion|].
    intros; apply ref_name_not_recursion. }
  apply bind_not_recursion; [apply has_allOf_ref_not_recursion|].
  intros [|] _; [apply allOf_ref_name_not_recursion|].
  apply bind_not_recursion; [apply py_in_not_recursion|]. intros [|] _;
    [|discriminate].
  apply bind_not_recursion; [apply py_getitem_not_recursion|]. intros t _.
  apply bind_not_recursion.
  { destruct (is_str t "array"); [apply py_in_not_recursion | discriminate]. }
  intros [|] _; [|discriminate].
  apply bind_not_recursion; [apply py_getitem_not_recursion|]. intros i _.
  apply bind_not_recursion; [apply item_type_of_not_recursion|].
  discriminate.
Qed.

Lemma property_record_not_recursion (schema : json) (path n : string)
    (d : json) :
  record_of schema path n d <> Raise RecursionError.
Proof.
  unfold property_record.
  apply bind_not_recursion; [unfold py_get; lookups_only|]. intros ds _.
  apply bind_not_recursion.
  { unfold is_required.
    apply bind_not_recursion; [apply py_in_not_recursion|]. intros [|] _;
      [|discriminate].
    apply bind_not_recursion; [apply py_getitem_not_recursion|].
    intros; apply py_in_not_recursion. }
  intros rq _.
  apply bind_not_recursion; [apply field_type_of_not_recursion|].
  discriminate.
Qed.

Lemma items_have_properties_not_recursion (d : json) :
  items_have_properties d <> Raise RecursionError.
Proof.
  unfold items_have_properties.
  apply bind_not_recursion; [apply py_in_not_recursion|]. intros [|] _;
    [|discriminate].
  apply bind_not_recursion; [apply py_getitem_not_recursion|].
  intros; apply py_in_not_recursion.
Qed.

Lemma depth_member (m : list (string * json)) (k : string) (v : json) :
  In (k, v) m -> depth v < depth (JObj m).
Proof.
  cbn [depth]. induction m as [|[k' v'] m IH]; [intros []|].
  intros [E|Hin]; cbn [fold_right snd].
  - injection E as -> ->. lia.
  - specialize (IH Hin). lia.
Qed.

Lemma depth_element (l : list json) (x : json) :
  In x l -> depth x < depth (JArr l).
Proof.
  cbn [depth]. induction l as [|y l IH]; [intros []|].
  intros [E|Hin]; cbn [fold_right].
  - subst. lia.
  - specialize (IH Hin). lia.
Qed.

Lemma lookup_member (key : string) (m : list (string * json)) (v : json) :
  lookup key m = Some v -> In (key, v) m.
Proof.
  induction m as [|[k' v'] m IH]; cbn [lookup]; [discriminate|].
  destruct (String.eqb_spec k' key) as [->|_].
  - intros [= ->]. left; reflexivity.
  - intros H. right. exact (IH H).
Qed.

Lemma depth_getitem (c : json) (key : string) (v : json) :
  py_getitem c key = Ok v -> depth v < depth c.
Proof.
  destruct c; try discriminate. cbn [py_getitem].
  destruct (lookup key members) eqn:E; [|discriminate].
  intros [= <-]. exact (depth_member _ _ _ (lookup_member _ _ _ E)).
Qed.

Lemma depth_iter (c : json) (subs : list json) (sub : json) :
  py_iter c = Ok subs -> In sub subs -> depth sub <= depth c.
Proof.
  destruct c; try discriminate; cbn [py_iter]; intros [= <-] Hin.
  - assert (depth sub = 0) as ->; [|lia].
    induction s as [|a s IH]; [destruct Hin|].
    destruct Hin as [<-|Hin]; auto.
  - pose proof (depth_element _ _ Hin). lia.
  - apply in_map_iff in Hin as (kv & <- & _). cbn [depth]. lia.
Qed.

Lemma process_not_recursion
    (recurse : json -> string -> list FieldRecord -> result (list FieldRecord))
    (bound : nat) (schema : json) (path n : string) (d : json)
    (fields : list FieldRecord) :
  (forall s p acc, depth s < bound -> recurse s p acc <> Raise RecursionError) ->
  depth d < bound ->
  process recurse schema path (n, d) fields <> Raise RecursionError.
Proof.
  intros Hrec Hd. unfold process_property.
  destruct (is_envelope n && String.eqb path ""); [discriminate|].
  apply bind_not_recursion; [apply property_record_not_recursion|].
  intros r _.
  apply bind_not_recursion; [apply py_in_not_recursion|]. intros [|] _.
  { apply Hrec, Hd. }
  apply bind_not_recursion; [apply py_in_not_recursion|]. intros [|] _.
  - apply bind_not_recursion; [apply py_getitem_not_recursion|].
    intros all_of Hall.
    apply bind_not_recursion; [apply py_iter_not_recursion|].
    intros subs Hsubs.
    apply for_each_not_recursion. intros sub acc Hsub.
    apply bind_not_recursion; [apply py_in_not_recursion|]. intros [|] _;
      [|discriminate].
    apply Hrec.
    pose proof (depth_getitem _ _ _ Hall).
    pose proof (depth_iter _ _ _ Hsubs Hsub). lia.
  - apply bind_not_recursion; [apply items_have_properties_not_recursion|].
    intros [|] _; [|discriminate].
    apply bind_not_recursion; [apply py_getitem_not_recursion|].
    intros items Hitems. apply Hrec.
    pose proof (depth_getitem _ _ _ Hitems). lia.
Qed.

(** A limit above the depth of the schema is enough: the walk returns its
    records or raises what a lookup raises. *)
Theorem limit_above_depth_is_enough (limit : nat) (schema : json)
    (path : string) (fields : list FieldRecord) :
  depth schema < limit ->
  walk limit schema path fields <> Raise RecursionError.
Proof.
  revert schema path fields.
  induction limit as [|limit IH]; intros schema path fields Hd; [lia|].
  cbn [get_fields_from_schema].
  apply bind_not_recursion; [unfold py_get; lookups_only|].
  intros properties Hprops.
  apply bind_not_recursion; [unfold py_items; lookups_only|].
  intros props Hitems.
  apply for_each_not_recursion. intros [n d] acc Hin.
  apply (process_not_recursion _ limit); [exact IH|].
  destruct properties; try discriminate. injection Hitems as ->.
  pose proof (depth_member _ _ _ Hin) as H1.
  destruct schema; try discriminate. cbn [py_get] in Hprops.
  destruct (lookup "properties" members) as [v|] eqn:E.
  - injection Hprops as ->.
    pose proof (depth_member _ _ _ (lookup_member _ _ _ E)). lia.
  - injection Hprops as <-. destruct Hin.
Qed.

Lemma for_each_stable {A S : Type} (xs : list A) (s : S)
    (body body' : A -> S -> result S) (r : result S) :
  (forall x s' r', body x s' = r' -> r' <> Raise RecursionError ->
                   body' x s' = r') ->
  for_each xs s body = r -> r <> Raise RecursionError ->
  for_each xs s body' = r.
Proof.
  intros Hb. revert s. induction xs as [|x xs IH]; intros s; simpl; [auto|].
  destruct (body x s) as [s1|e] eqn:E; simpl; intros Hr Hne.
  - rewrite (Hb x s (Ok s1) E); [|discriminate]. simpl. exact (IH s1 Hr Hne).
  - rewrite (Hb x s (Raise e) E); [exact Hr | congruence].
Qed.

Lemma process_stable
    (recurse recurse' :
       json -> string -> list FieldRecord -> result (list FieldRecord))
    (schema : json) (path : string) (prop : string * json)
    (fields : list FieldRecord) (r : result (list FieldRecord)) :
  (forall s p acc r', recurse s p acc = r' -> r' <> Raise RecursionError ->
                      recurse' s p acc = r') ->
  process recurse schema path prop fields = r ->
  r <> Raise RecursionError ->
  process recurse' schema path prop fields = r.
Proof.
  intros Hrec. unfold process_property. destruct prop as [n d].
  destruct (is_envelope n && String.eqb path ""); [auto|].
  destruct (record_of schema path n d) as [rec|e]; simpl; [|auto].
  destruct (py_in "properties" d) as [[|]|e]; simpl; [apply Hrec| |auto].
  destruct (py_in "allOf" d) as [[|]|e]; simpl; [| |auto].
  - destruct (py_getitem d "allOf") as [all_of|e]; simpl; [|auto].
    destruct (py_iter all_of) as [subs|e]; simpl; [|auto].
    apply for_each_stable. intros sub acc r'.
    destruct (py_in "properties" sub) as [[|]|e]; simpl; auto.
  - destruct (items_have_properties d) as [[|]|e]; simpl; [|auto|auto].
    destruct (py_getitem d "items") as [items|e]; simpl; [apply Hrec | auto].
Qed.

(** A limit that is not hit can be raised without changing the result. *)
Theorem limit_not_hit_is_irrelevant (limit limit' : nat) (schema : json)
    (path : string) (fields : list FieldRecord)
    (r : result (list FieldRecord)) :
  walk limit schema path fields = r ->
  r <> Raise RecursionError ->
  limit <= limit' ->
  walk limit' schema path fields = r.
Proof.
  revert limit' schema path fields r.
  induction limit as [|limit IH]; intros limit' schema path fields r Hr Hne Hle.
  - simpl in Hr. congruence.
  - destruct limit' as [|limit']; [lia|].
    revert Hr. cbn [get_fields_from_schema].
    destruct (py_get schema "properties" (JObj [])) as [properties|e];
      simpl; [|auto].
    destruct (py_items properties) as [props|e]; simpl; [|auto].
    intros Hr. apply (for_each_stable props fields
                        (process (walk limit) schema path)); try assumption.
    intros prop acc r'. apply process_stable.
    intros s p acc' r'' H1 H2. apply (IH limit'); [assumption..|lia].
Qed.

(** *** Every record comes from a property of a visited level *)

Lemma visits_trans (a : json) (pa : string) (b : json) (pb : string)
    (c : json) (pc : string) :
  visits a pa b pb -> visits b pb c pc -> visits a pa c pc.
Proof.
  intros Hab Hbc. induction Hbc as [|s p s' p' _ IH Hc]; [exact Hab|].
  exact (visits_deeper _ _ _ _ _ _ IH Hc).
Qed.

Lemma for_each_out {A R : Type} (xs : list A)
    (body : A -> list R -> result (list R)) (acc out : list R) (r : R) :
  (forall y, framed (body y)) ->
  for_each xs acc body = Ok out -> In r out ->
  In r acc
  \/ exists x added, In x xs /\ body x [] = Ok added /\ In r added.
Proof.
  intros Hbody. revert acc. induction xs as [|y xs IH]; intros acc H Hr.
  - injection H as <-. left; exact Hr.
  - simpl in H. apply bind_ok_inv in H as (mid & Hy & Hrest).
    destruct (IH mid Hrest Hr) as [Hmid|(x & added & Hx & Hb & Ha)].
    + destruct (framed_extends _ _ _ (Hbody y) Hy) as (added & Hy0 & ->).
      apply in_app_or in Hmid as [Hacc|Hadd]; [left; exact Hacc|].
      right. exists y, added. split; [left; reflexivity | auto].
    + right. exists x, added. split; [right; exact Hx | auto].
Qed.

(** The walk adds nothing but the records of the properties of the levels
    it visits. *)
Theorem emitted_records_are_property_records (limit : nat) (root : json)
    (prefix : string) (acc out : list FieldRecord) (r : FieldRecord) :
  walk limit root prefix acc = Ok out ->
  In r out ->
  In r acc
  \/ exists schema path props n d,
       visits root prefix schema path
       /\ py_get schema "properties" (JObj []) = Ok (JObj props)
       /\ In (n, d) props
       /\ is_envelope n && String.eqb path "" = false
       /\ record_of schema path n d = Ok r.
Proof.
  revert root prefix acc out.
  induction limit as [|limit IH]; intros root prefix acc out H Hr;
    [discriminate|].
  cbn [get_fields_from_schema] in H.
  apply bind_ok_inv in H as (properties & Hprops & H).
  apply bind_ok_inv in H as (props & Hitems & H).
  destruct properties; try discriminate. injection Hitems as ->.
  destruct (for_each_out props _ acc out r
              (fun y => process_property_framed (walk limit) root prefix y
                          (walk_framed limit))
              H Hr) as [Hacc|([n d] & added & Hin & Hproc & Hadd)];
    [left; exact Hacc|].
  right. revert Hproc. unfold process_property.
  destruct (is_envelope n && String.eqb prefix "") eqn:Hskip.
  { intros [= <-]. destruct Hadd. }
  intros Hproc. apply bind_ok_inv in Hproc as (rec & Hrec & Hproc).
  cbn [app] in Hproc.
  assert (In r [rec] ->
          exists schema path props0 n0 d0,
            visits root prefix schema path
            /\ py_get schema "properties" (JObj []) = Ok (JObj props0)
            /\ In (n0, d0) props0
            /\ is_envelope n0 && String.eqb path "" = false
            /\ record_of schema path n0 d0 = Ok r) as Hhere.
  { intros [<-|[]]. exists root, prefix, props, n, d.
    split; [apply visits_here | auto]. }
  assert (forall s p,
            calls root prefix s p ->
            (exists schema path props0 n0 d0,
               visits s p schema path
               /\ py_get schema "properties" (JObj []) = Ok (JObj props0)
               /\ In (n0, d0) props0
               /\ is_envelope n0 && String.eqb path "" = false
               /\ record_of schema path n0 d0 = Ok r) ->
            exists schema path props0 n0 d0,
              visits root prefix schema path
              /\ py_get schema "properties" (JObj []) = Ok (JObj props0)
              /\ In (n0, d0) props0
              /\ is_envelope n0 && String.eqb path "" = false
              /\ record_of schema path n0 d0 = Ok r) as Hdeep.
  { intros s p Hc (schema & path & props0 & n0 & d0 & Hv & Hrest).
    exists schema, path, props0, n0, d0. split; [|exact Hrest].
    apply (visits_trans _ _ s p); [|exact Hv].
    exact (visits_deeper _ _ _ _ _ _ (visits_here _ _) Hc). }
  apply bind_ok_inv in Hproc as (hp & Hp & Hproc). destruct hp.
  { destruct (IH _ _ _ _ Hproc Hadd) as [Hin'|Hnested]; [auto|].
    apply (Hdeep d (join_path prefix n)); [|exact Hnested].
    exact (calls_properties _ _ props n d Hprops Hin Hskip Hp). }
  apply bind_ok_inv in Hproc as (ha & Ha & Hproc). destruct ha.
  { apply bind_ok_inv in Hproc as (all_of & Hall & Hproc).
    apply bind_ok_inv in Hproc as (subs & Hsubs & Hproc).
    match type of Hproc with
    | for_each _ _ ?b = _ => assert (forall x, framed (b x)) as Hb
    end.
    { intros sub acc'. simpl.
      destruct (py_in "properties" sub) as [[|]|e]; simpl.
      - apply walk_framed.
      - now rewrite app_nil_r.
      - reflexivity. }
    destruct (for_each_out subs _ _ _ r Hb Hproc Hadd)
      as [Hin'|(sub & added' & Hsub & Hcall & Hadd')]; [auto|].
    simpl in Hcall. apply bind_ok_inv in Hcall as (sp & Hsp & Hcall).
    destruct sp; [|injection Hcall as <-; destruct Hadd'].
    destruct (IH _ _ _ _ Hcall Hadd') as [[]|Hnested].
    apply (Hdeep sub (join_path prefix n)); [|exact Hnested].
    exact (calls_allOf _ _ props n d all_of subs sub Hprops Hin Hskip Hp Ha
             Hall Hsubs Hsub Hsp). }
  apply bind_ok_inv in Hproc as (hi & Hi & Hproc). destruct hi.
  - apply bind_ok_inv in Hproc as (items & Hitems & Hproc).
    destruct (IH _ _ _ _ Hproc Hadd) as [Hin'|Hnested]; [auto|].
    apply (Hdeep items (join_path prefix n ++ "[]")); [|exact Hnested].
    exact (calls_items _ _ props n d items Hprops Hin Hskip Hp Ha Hi Hitems).
  - injection Hproc as <-. auto.
Qed.

End WalkerFacts.

(** *** The claims at concrete schemas *)


Lemma C6_envelope_skipped_only_at_empty_prefix_witness :
  let kind_schema :=
    JObj [("type", JStr "string");
          ("properties", JObj [("x", JObj [("type", JStr "integer")])])] in
  let spec_schema := JObj [("properties", JObj [("kind", kind_schema)])] in
  let root :=
    JObj [("properties",
           JObj [("kind", JObj [("type", JStr "string")]);
                 ("spec", spec_schema)])] in
  exists out r r',
    get_fields_from_schema (fun _ => "") "apps" "Deployment" 3 root "" []
    = Ok out
    /\ In r out /\ Field r = "spec.kind"
    /\ In r' out /\ Field r' = "spec.kind.x"
    /\ ~ (exists r0, In r0 out /\ Field r0 = "kind").
Proof.
  intros kind_schema spec_schema root.
  assert (visits root "" spec_schema "spec") as Hv.
  { apply (visits_deeper _ _ root "" spec_schema "spec" (visits_here _ _)).
    exact (calls_properties root ""
             [("kind", JObj [("type", JStr "string")]); ("spec", spec_schema)]
             "spec" spec_schema eq_refl (or_intror (or_introl eq_refl))
             eq_refl eq_refl). }
  destruct (proj1
    (C6_envelope_skipped_only_at_empty_prefix (fun _ => "") "apps"
       "Deployment" 3 root "" [] _ spec_schema "spec"
       [("kind", kind_schema)] "kind" kind_schema
       eq_refl Hv eq_refl (or_introl eq_refl) eq_refl
       (fun E => match E in _ = s return
                         match s with EmptyString => False | _ => True end
                 with eq_refl => I end)))
    as (r & Hin & Hf & _ & Hnested).
  destruct (Hnested _ [("x", JObj [("type", JStr "integer")])] "x"
              (JObj [("type", JStr "integer")]) eq_refl eq_refl
              (or_introl eq_refl)) as (r' & Hin' & Hf' & _).
  eexists; exists r, r'. split; [reflexivity|].
  split; [exact Hin|]. split; [exact Hf|].
  split; [exact Hin'|]. split; [exact Hf'|].
  intros (r0 & [<-|[<-|[<-|[]]]] & E); discriminate E.
Defined.

Lemma C7_allOf_members_share_the_path_witness :
  exists r,
    In r [mkField "apps" "Deployment" "spec" (JStr "") "spec" "true" (JStr "");
          mkField "apps" "Deployment" "spec.replicas" (JStr "integer")
                  "replicas" "true" (JStr "")]
    /\ JSONTag r = "replicas" /\ Field r = "spec.replicas".
Proof.
  destruct
    (C7_allOf_members_share_the_path (fun _ => "") "apps" "Deployment" 2
       (JObj [("properties",
               JObj [("spec",
                      JObj [("allOf",
                             JArr [JObj [("properties",
                                          JObj [("replicas",
                                                 JObj [("type",
                                                        JStr "integer")])])]])])])])
       "" [] _ _ "" _ "spec" _ _ _ _ "replicas" (JObj [("type", JStr "integer")])
       eq_refl (visits_here _ _) eq_refl (or_introl eq_refl) eq_refl eq_refl
       eq_refl (or_introl eq_refl) eq_refl (or_introl eq_refl) eq_refl)
    as (r & Hin & Ht & Hf & _).
  exists r. split; [exact Hin|]. split; [exact Ht | exact Hf].
Defined.

(** C7, as stated, fails: under the property named by the empty string at
    the empty prefix, the property [x] of an [allOf] member is emitted with
    the path [x], not with the parent's path, a dot and [x]. *)
Lemma C7_empty_parent_path_takes_no_dot :
  let root :=
    JObj [("properties",
           JObj [("",
                  JObj [("allOf",
                         JArr [JObj [("properties",
                                      JObj [("x",
                                             JObj [("type",
                                                    JStr "string")])])]])])])] in
  exists parent child,
    get_fields_from_schema (fun _ => "") "" "" 2 root "" []
    = Ok [parent; child]
    /\ Field parent = ""
    /\ JSONTag child = "x"
    /\ Field child = "x"
    /\ Field child <> Field parent ++ "." ++ "x".
Proof.
  do 2 eexists. split; [vm_compute; reflexivity|].
  repeat split. discriminate.
Qed.


End ExtractOpenapiFieldsFacts.

(** * Further properties of the two scripts *)

(** ** The struct extractor and the locator, beyond the claims *)

Module ExtractFieldsMore.
Import PyStr Regex ExtractFields PyStrFacts RegexFacts ExtractFieldsFacts.

(** *** Tokens, parts and groups *)

Lemma split_ws_no_space (s : string) :
  Forall (fun tok => all_chars not_space tok = true) (split_ws s).
Proof.
  unfold not_space.
  induction s as [|c s IH]; [constructor|].
  cbn [split_ws]. destruct (is_space c) eqn:Hc; [exact IH|].
  destruct s as [|c' s']; [repeat constructor; cbn; now rewrite Hc|].
  destruct (is_space c') eqn:Hc'.
  - constructor; [cbn; now rewrite Hc | exact IH].
  - destruct (split_ws (String c' s')) as [|tok toks].
    + repeat constructor. cbn. now rewrite Hc.
    + inversion IH as [|? ? Htok Htoks]; subst.
      constructor; [cbn [all_chars]; now rewrite Hc, Htok | assumption].
Qed.

Lemma split_on_parts_clean (sep : ascii) (s : string) :
  Forall (fun part => contains (String sep EmptyString) part = false)
         (split_on sep s).
Proof.
  induction s as [|c s IH]; [repeat constructor|].
  cbn [split_on]. destruct (Ascii.eqb_spec c sep) as [->|Hne].
  - constructor; [reflexivity | exact IH].
  - destruct (split_on sep s) as [|part parts].
    + repeat constructor. rewrite contains_char_cons.
      destruct (Ascii.eqb_spec sep c); [congruence | reflexivity].
    + inversion IH as [|? ? Hp Hps]; subst. constructor; [|assumption].
      rewrite contains_char_cons, Hp.
      destruct (Ascii.eqb_spec sep c); [congruence | reflexivity].
Qed.

(** A match of the json tag pattern has one group. *)
Lemma json_match_groups (s : string) (groups : list string) (rest : string) :
  match_items json_tag_pattern s [] = Some (groups, rest) ->
  exists tag,
    groups = [tag]
    /\ s = "json:" ++ String dquote (tag ++ String dquote rest)
    /\ all_chars (char_is_not dquote) tag = true.
Proof.
  unfold json_tag_pattern. cbn [match_items].
  destruct (strip_prefix _ s) as [s1|] eqn:E1; [|discriminate].
  apply strip_prefix_app in E1. intros H.
  apply rep_inv in H as (tag & s2 & -> & Htag & _ & H).
  destruct (strip_prefix _ s2) as [s3|] eqn:E2; [|discriminate].
  apply strip_prefix_app in E2 as ->.
  cbn [rev app] in H. injection H as <- <-.
  exists tag. split; [reflexivity|]. split; [exact E1 | exact Htag].
Qed.

Lemma json_search_groups (tags : string) (groups : list string) :
  search json_tag_pattern tags = Some groups ->
  exists tag before after,
    groups = [tag]
    /\ tags = before ++ "json:" ++ String dquote (tag ++ String dquote after)
    /\ all_chars (char_is_not dquote) tag = true.
Proof.
  induction tags as [|c tags IH]; cbn [search].
  - destruct (match_items json_tag_pattern EmptyString []) as [[g r]|] eqn:E;
      [|discriminate].
    intros [= <-]. destruct (json_match_groups _ _ _ E) as (tag & -> & Hs & Ht).
    exists tag, EmptyString, r. auto.
  - destruct (match_items json_tag_pattern (String c tags) []) as [[g r]|] eqn:E.
    + intros [= <-].
      destruct (json_match_groups _ _ _ E) as (tag & -> & Hs & Ht).
      exists tag, EmptyString, r. auto.
    + intros H. destruct (IH H) as (tag & before & after & -> & -> & Ht).
      exists tag, (String c before), after. auto.
Qed.

Lemma json_tag_of_shape (tags : string) :
  all_chars (char_is_not dquote) (json_tag_of tags) = true
  /\ ((search json_tag_pattern tags = None /\ json_tag_of tags = EmptyString)
      \/ exists before after,
           tags = before ++ "json:"
                  ++ String dquote (json_tag_of tags ++ String dquote after)).
Proof.
  unfold json_tag_of.
  destruct (search json_tag_pattern tags) as [groups|] eqn:E.
  - destruct (json_search_groups _ _ E) as (tag & before & after & -> & Hs & Ht).
    cbn [group Nat.pred nth]. split; [exact Ht|].
    right. exists before, after. exact Hs.
  - split; [reflexivity|]. left. split; reflexivity.
Qed.

(** X6: the json tag read out of a tag text holds no double quote, and
    when the pattern is found it is the text that stands in the tag text
    between [json:] with a double quote and the next double quote, options
    after a comma included. *)
Theorem X6_json_tag_is_the_quoted_text (tags : string) :
  all_chars (char_is_not dquote) (json_tag_of tags) = true
  /\ ((search json_tag_pattern tags = None /\ json_tag_of tags = EmptyString)
      \/ exists before after,
           tags = before ++ "json:"
                  ++ String dquote (json_tag_of tags ++ String dquote after)).
Proof. exact (json_tag_of_shape tags). Qed.

(** A match of the struct pattern has two groups. *)
Lemma struct_match_groups (s : string) (groups : list string) (rest : string) :
  match_items struct_pattern s [] = Some (groups, rest) ->
  exists name body, groups = [name; body].
Proof.
  unfold struct_pattern. cbn [match_items]. intros H.
  destruct (strip_prefix "type" s) as [s1|] eqn:E1; [|discriminate].
  apply rep_inv in H as (ws1 & s2 & _ & _ & _ & H).
  apply rep_inv in H as (name & s3 & _ & _ & _ & H).
  apply rep_inv in H as (ws2 & s4 & _ & _ & _ & H).
  destruct (strip_prefix "struct" s4) as [s5|] eqn:E2; [|discriminate].
  apply rep_inv in H as (ws3 & s6 & _ & _ & _ & H).
  destruct (strip_prefix "{" s6) as [s7|] eqn:E3; [|discriminate].
  apply rep_inv in H as (body & s8 & _ & _ & _ & H).
  destruct (strip_prefix "}" s8) as [s9|] eqn:E4; [|discriminate].
  cbn [rev app] in H. injection H as <- _. eauto.
Qed.

(** What [finditer] yields was matched somewhere in the text. *)
Lemma finditer_from_matched (p : pattern) (skip : nat) (s : string)
    (m : list string) :
  In m (finditer_from p skip s) ->
  exists before at_match rest,
    s = before ++ at_match /\ match_items p at_match [] = Some (m, rest).
Proof.
  revert skip. induction s as [|c s IH]; intros skip; cbn [finditer_from].
  - destruct skip; [|intros []].
    destruct (match_items p EmptyString []) as [[g r]|] eqn:E; [|intros []].
    intros [<-|[]]. exists EmptyString, EmptyString, r. auto.
  - assert (forall k, In m (finditer_from p k s) ->
              exists before at_match rest,
                String c s = before ++ at_match
                /\ match_items p at_match [] = Some (m, rest)) as Hnext.
    { intros k Hk. destruct (IH k Hk) as (b & a & r & -> & Hm).
      exists (String c b), a, r. auto. }
    destruct skip; [|apply Hnext].
    destruct (match_items p (String c s) []) as [[g r]|] eqn:E; [|apply Hnext].
    intros [<-|Hin]; [|exact (Hnext _ Hin)].
    exists EmptyString, (String c s), r. auto.
Qed.

(** X5: every block [finditer] reports stands in the text as the word
    [type], white space, a name of word characters, white space, the word
    [struct], optional white space and a brace-delimited body that is not
    empty and holds no closing brace: the body ends at the first closing
    brace after the opening one. *)
Theorem X5_block_ends_at_first_closing_brace (content : string)
    (m : list string) :
  In m (finditer struct_pattern content) ->
  exists name body before after ws1 ws2 ws3,
    m = [name; body]
    /\ content = before ++ "type" ++ ws1 ++ name ++ ws2 ++ "struct" ++ ws3
                 ++ "{" ++ body ++ "}" ++ after
    /\ all_chars is_space ws1 = true /\ 1 <= String.length ws1
    /\ all_chars is_word name = true /\ 1 <= String.length name
    /\ all_chars is_space ws2 = true /\ 1 <= String.length ws2
    /\ all_chars is_space ws3 = true
    /\ all_chars (char_is_not "}") body = true /\ 1 <= String.length body.
Proof.
  intros Hin.
  destruct (finditer_from_matched _ _ _ _ Hin) as (before & at_m & rest & -> & Hm).
  destruct (struct_match_groups _ _ _ Hm) as (name & body & ->).
  destruct (struct_match_shape _ _ _ _ Hm) as (ws1 & ws2 & ws3 & -> & Hrest).
  exists name, body, before, rest, ws1, ws2, ws3.
  split; [reflexivity|]. split; [reflexivity | exact Hrest].
Qed.

Lemma X5_block_ends_at_first_closing_brace_witness :
  exists name body,
    ["T"; " A map[string]struct{"] = [name; body]
    /\ all_chars (char_is_not "}") body = true.
Proof.
  destruct (X5_block_ends_at_first_closing_brace
              "type T struct { A map[string]struct{} }"
              ["T"; " A map[string]struct{"] (or_introl eq_refl))
    as (name & body & _ & _ & _ & _ & _ & Hm & _ & _ & _ & _ & _ & _ & _ & _
        & Hb & _).
  exists name, body. split; [exact Hm | exact Hb].
Defined.

(** *** The records of a body *)

Lemma tags_hold_no_backtick (line tags json : string) :
  line_tags line = Ok (tags, json) -> contains "`" tags = false.
Proof.
  intros H. destruct (line_tags_ok line) as (tags' & Hl & He & Hn).
  rewrite H in Hl. injection Hl as <- _.
  destruct (contains "`" line) eqn:E.
  - specialize (Hn eq_refl). apply nth_error_In in Hn.
    pose proof (split_on_parts_clean "`" line) as F.
    rewrite Forall_forall in F. exact (F _ Hn).
  - rewrite (He eq_refl). reflexivity.
Qed.

Lemma declaration_record_well_formed (raw : string) (st st' : scan_state) :
  classify raw = Declaration ->
  process_line raw st = Ok st' ->
  exists r,
    fields st' = (fields st ++ [r])%list /\ well_formed r
    /\ (Field r, Type_ r) = name_and_type raw.
Proof.
  intros Hd H.
  destruct (declaration_line raw st Hd) as (n & t & rest & tags & Ht & Hl & Hp).
  rewrite Hp in H. injection H as <-. eexists. split; [reflexivity|].
  pose proof (split_ws_tokens (strip raw)) as Hne.
  pose proof (split_ws_no_space (strip raw)) as Hns.
  rewrite Ht in Hne, Hns.
  inversion Hne as [|? ? Hn Hne']; subst. inversion Hne' as [|? ? Hty _]; subst.
  inversion Hns as [|? ? Hn' Hns']; subst. inversion Hns' as [|? ? Hty' _]; subst.
  split.
  - unfold well_formed. cbn [Field Type_ Optional StructTags JSONTag].
    repeat split; try assumption.
    + destruct (is_optional st || contains "+optional" tags); auto.
    + exact (tags_hold_no_backtick _ _ _ Hl).
    + exact (proj1 (json_tag_of_shape tags)).
  - unfold name_and_type. rewrite Ht. reflexivity.
Qed.

Lemma other_line_keeps_fields (raw : string) (st st' : scan_state) :
  classify raw <> Declaration ->
  process_line raw st = Ok st' -> fields st' = fields st.
Proof.
  intros Hd. destruct (classify_cases raw) as [H|[H|[H|H]]].
  - rewrite (blank_line _ _ H). now intros [= <-].
  - rewrite (comment_line _ _ H). now intros [= <-].
  - rewrite (embedded_line _ _ H). now intros [= <-].
  - contradiction.
Qed.

Lemma is_declaration_true (raw : string) :
  is_declaration raw = true <-> classify raw = Declaration.
Proof. unfold is_declaration. destruct (classify raw); split; congruence. Qed.

Lemma lines_records (lines : list string) (st st' : scan_state) :
  for_each lines st process_line = Ok st' ->
  map (fun r => (Field r, Type_ r)) (fields st')
  = (map (fun r => (Field r, Type_ r)) (fields st)
     ++ map name_and_type (filter is_declaration lines))%list
  /\ (Forall well_formed (fields st) -> Forall well_formed (fields st')).
Proof.
  revert st. induction lines as [|raw lines IH]; intros st; simpl.
  - intros [= <-]. rewrite app_nil_r. auto.
  - intros H. apply bind_ok_inv in H as (st1 & H1 & H2).
    destruct (IH _ H2) as (Hmap & Hwf). rewrite Hmap.
    destruct (is_declaration raw) eqn:E.
    + apply is_declaration_true in E.
      destruct (declaration_record_well_formed _ _ _ E H1) as (r & Hf & Hr & Hnt).
      rewrite Hf in *. split.
      * rewrite map_app, <- app_assoc. cbn [map app]. now rewrite Hnt.
      * intros F. apply Hwf, Forall_app. split; [exact F | now constructor].
    + assert (classify raw <> Declaration) as Hn
        by (intros Hc; apply is_declaration_true in Hc; congruence).
      rewrite (other_line_keeps_fields _ _ _ Hn H1) in *.
      split; [reflexivity | exact Hwf].
Qed.

(** X2: a struct body yields one record for each of its declaration
    lines, in their order, with the first token of the line as field name
    and the second as type; blank, comment and embedded lines yield none. *)
Theorem X2_one_record_per_declaration_line (struct_body : string) :
  exists found,
    struct_body_fields struct_body [] = Ok found
    /\ map (fun r => (Field r, Type_ r)) found
       = map name_and_type
           (filter is_declaration (split_on newline struct_body)).
Proof.
  unfold struct_body_fields.
  destruct (lines_total (split_on newline struct_body) (mkState [] false []))
    as (st & H).
  exists (fields st). rewrite H. split; [reflexivity|].
  exact (proj1 (lines_records _ _ _ H)).
Qed.

Lemma struct_body_fields_well_formed (struct_body : string)
    (acc found : list FieldRecord) :
  Forall well_formed acc ->
  struct_body_fields struct_body acc = Ok found ->
  Forall well_formed found.
Proof.
  unfold struct_body_fields. intros F H.
  apply bind_ok_inv in H as (st & H & [= <-]).
  exact (proj2 (lines_records _ _ _ H) F).
Qed.

Lemma extract_from_content_well_formed (content struct_name : string)
    (found : list FieldRecord) :
  extract_from_content content struct_name = Ok found ->
  Forall well_formed found.
Proof.
  unfold extract_from_content.
  assert (forall ms acc,
            Forall well_formed acc ->
            for_each ms acc
              (fun m acc =>
                 if negb (String.eqb (group m 1) struct_name) then Ok acc
                 else struct_body_fields (group m 2) acc) = Ok found ->
            Forall well_formed found) as Hgen.
  { induction ms as [|m ms IH]; intros acc F; simpl.
    - now intros [= <-].
    - intros H. apply bind_ok_inv in H as (acc1 & H1 & H2).
      apply (IH acc1); [|exact H2].
      destruct (negb (String.eqb (group m 1) struct_name)).
      + now injection H1 as <-.
      + exact (struct_body_fields_well_formed _ _ _ F H1). }
  apply Hgen. constructor.
Qed.

(** X3: every record of the extractor has a field name and a type that are
    not empty and hold no white space, an ['Optional'] that is ["true"] or
    ["false"], a tag text without backtick and a json tag without double
    quote. *)
Theorem X3_records_are_well_formed (content struct_name : string) :
  exists found,
    extract_from_content content struct_name = Ok found
    /\ Forall well_formed found.
Proof.
  destruct (extract_from_content_total content struct_name) as (found & H).
  exists found. split; [exact H|].
  exact (extract_from_content_well_formed _ _ _ H).
Qed.

(** X1: reading the fields of a struct raises only what reading the file
    raises: a missing file gives no records, a file that is read gives
    records (every index of the parsing is in range), and an exception is
    the one the read raised. *)
Theorem X1_only_reading_the_file_raises (fs : filesystem)
    (file_path struct_name : string) :
  (path_exists fs file_path = false
   /\ extract_struct_fields fs file_path struct_name = Ok [])
  \/ (path_exists fs file_path = true
      /\ exists content found,
           read_text fs file_path = Ok content
           /\ extract_from_content content struct_name = Ok found
           /\ extract_struct_fields fs file_path struct_name = Ok found)
  \/ (path_exists fs file_path = true
      /\ exists e,
           read_text fs file_path = Raise e
           /\ extract_struct_fields fs file_path struct_name = Raise e).
Proof.
  unfold extract_struct_fields.
  destruct (path_exists fs file_path); cbn [negb]; [right | left; auto].
  destruct (read_text fs file_path) as [content|e]; cbn [bind].
  - left. split; [reflexivity|].
    destruct (extract_from_content_total content struct_name) as (found & H).
    exists content, found. auto.
  - right. split; [reflexivity|]. exists e. auto.
Qed.

(** *** The pending marker *)

Lemma unmarked_lines_keep_flag (mid : list string) (cb : list string)
    (f : list FieldRecord) :
  Forall (fun l => classify l = Blank
                   \/ (classify l = Comment
                       /\ contains "+optional" (strip l) = false)) mid ->
  exists cb',
    for_each mid (mkState cb false f) process_line = Ok (mkState cb' false f).
Proof.
  intros H; revert cb; induction H as [|l mid [Hl|[Hl Hm]] _ IH]; intros cb;
    simpl.
  - eauto.
  - rewrite (blank_line _ _ Hl). simpl. apply IH.
  - rewrite (comment_line _ _ Hl), Hm. simpl. apply IH.
Qed.

(** X4: a [+optional] comment marks the next field line only: after a
    declaration or an embedded line, whatever was pending, the next
    declaration (with blank lines and comments without the marker in
    between) is optional exactly when its own tag text holds the marker. *)
Theorem X4_marker_is_spent_on_the_next_field_line (st : scan_state)
    (x f : string) (mid : list string) :
  classify x = Embedded \/ classify x = Declaration ->
  Forall (fun l => classify l = Blank
                   \/ (classify l = Comment
                       /\ contains "+optional" (strip l) = false)) mid ->
  classify f = Declaration ->
  exists st1 r,
    process_line x st = Ok st1
    /\ for_each (mid ++ [f]) st1 process_line
       = Ok (mkState [] false (fields st1 ++ [r]))
    /\ (Field r, Type_ r) = name_and_type f
    /\ Optional r
       = (if contains "+optional" (StructTags r) then "true" else "false").
Proof.
  intros Hx Hmid Hf.
  assert (exists fs1, process_line x st = Ok (mkState [] false fs1))
    as (fs1 & Hx1).
  { destruct Hx as [Hx|Hx].
    - rewrite (embedded_line _ _ Hx). eauto.
    - destruct (declaration_line x st Hx) as (? & ? & ? & ? & _ & _ & ->).
      eauto. }
  exists (mkState [] false fs1). rewrite Hx1.
  rewrite for_each_app.
  destruct (unmarked_lines_keep_flag mid [] fs1 Hmid) as (cb' & ->).
  cbn [bind for_each].
  destruct (declaration_line f (mkState cb' false fs1) Hf)
    as (n & t & rest & tags & Ht & _ & ->).
  cbn [bind]. eexists. split; [reflexivity|]. split; [reflexivity|].
  cbn [Field Type_ Optional StructTags is_optional orb].
  split; [|reflexivity]. unfold name_and_type. rewrite Ht. reflexivity.
Qed.

Lemma X4_marker_is_spent_on_the_next_field_line_witness :
  exists st1 r,
    process_line "  metav1.TypeMeta"
      (mkState ["// +optional"] true []) = Ok st1
    /\ for_each [""; "  // the name"; "  Name string"] st1 process_line
       = Ok (mkState [] false (fields st1 ++ [r]))
    /\ Optional r = "false".
Proof.
  destruct (X4_marker_is_spent_on_the_next_field_line
              (mkState ["// +optional"] true []) "  metav1.TypeMeta"
              "  Name string" [""; "  // the name"] (or_introl eq_refl))
    as (st1 & r & H1 & H2 & _ & Ho).
  - constructor; [left; reflexivity|].
    constructor; [right; split; reflexivity | constructor].
  - reflexivity.
  - exists st1, r. split; [exact H1|]. split; [exact H2|].
    rewrite Ho. injection H1 as <-. cbn in H2. injection H2 as <-. reflexivity.
Defined.

(** *** What the locator returns *)

Lemma probe_paths_found (fs : filesystem) (kind : string)
    (paths : list string) (p : string) :
  probe_paths fs kind paths = Ok (Some p) ->
  In p paths /\ path_exists fs p = true
  /\ exists content, read_text fs p = Ok content /\ declares kind content = true.
Proof.
  induction paths as [|q paths IH]; simpl; [discriminate|].
  destruct (path_exists fs q) eqn:Hq.
  - destruct (read_text fs q) as [content|e] eqn:Hr; cbn [bind]; [|discriminate].
    destruct (declares kind content) eqn:Hd.
    + intros [= <-]. split; [left; reflexivity|]. split; [exact Hq|]. eauto.
    + intros H. destruct (IH H) as (Hin & Hrest). split; [right; exact Hin | exact Hrest].
  - intros H. destruct (IH H) as (Hin & Hrest). split; [right; exact Hin | exact Hrest].
Qed.

Lemma scan_files_found (fs : filesystem) (kind : string)
    (files : list string) (p : string) :
  scan_files fs kind files = Ok (Some p) ->
  In p files
  /\ contains "test" p = false /\ contains "generated" p = false
  /\ exists content, read_text fs p = Ok content /\ declares kind content = true.
Proof.
  induction files as [|q files IH]; simpl; [discriminate|].
  assert (scan_files fs kind files = Ok (Some p) ->
          In p (q :: files)
          /\ contains "test" p = false /\ contains "generated" p = false
          /\ exists content,
               read_text fs p = Ok content /\ declares kind content = true)
    as Hrest.
  { intros H. destruct (IH H) as (Hin & Hr). split; [right; exact Hin | exact Hr]. }
  destruct (contains "test" q || contains "generated" q) eqn:Hx; [exact Hrest|].
  apply orb_false_elim in Hx as [Ht Hg].
  destruct (read_text fs q) as [content|e] eqn:Hr.
  - destruct (declares kind content) eqn:Hd; [|exact Hrest].
    intros [= <-]. split; [left; reflexivity|]. repeat split; eauto.
  - destruct e; try discriminate. exact Hrest.
Qed.

Lemma scan_dirs_found (fs : filesystem) (kind : string) (dirs : list string)
    (p : string) :
  scan_dirs fs kind dirs = Ok (Some p) ->
  exists d,
    In d dirs /\ In p (glob_go fs d)
    /\ contains "test" p = false /\ contains "generated" p = false
    /\ exists content, read_text fs p = Ok content /\ declares kind content = true.
Proof.
  induction dirs as [|d dirs IH]; simpl; [discriminate|].
  destruct (scan_files fs kind (glob_go fs d)) as [[q|]|e] eqn:Hs; cbn [bind];
    [| |discriminate].
  - intros [= <-]. destruct (scan_files_found _ _ _ _ Hs) as (Hin & Hrest).
    exists d. split; [left; reflexivity|]. split; [exact Hin | exact Hrest].
  - intros H. destruct (IH H) as (d' & Hd & Hrest).
    exists d'. split; [right; exact Hd | exact Hrest].
Qed.

(** X7: the file the locator returns was read as text and declares a
    struct of the requested name. *)
Theorem X7_located_file_declares_the_kind (fs : filesystem)
    (api_group kind path : string) :
  find_struct_file fs api_group kind = Ok (Some path) ->
  exists content,
    read_text fs path = Ok content /\ declares kind content = true.
Proof.
  unfold find_struct_file. intros H.
  apply bind_ok_inv in H as (paths & _ & H).
  apply bind_ok_inv in H as (found & Hp & H).
  destruct found as [q|].
  - injection H as <-. exact (proj2 (proj2 (probe_paths_found _ _ _ _ Hp))).
  - destruct (scan_dirs_found _ _ _ _ H) as (d & _ & _ & _ & _ & Hc). exact Hc.
Qed.

Lemma X7_located_file_declares_the_kind_witness :
  let fs :=
    mkFS (fun _ => Ok []) (fun _ => false) (fun _ => false)
         (fun _ => Ok "type Deployment struct { Spec DeploymentSpec }")
         (fun d => if String.eqb d "pkg/apis" then ["pkg/apis/apps/types.go"]
                   else []) in
  exists content,
    read_text fs "pkg/apis/apps/types.go" = Ok content
    /\ declares "Deployment" content = true.
Proof.
  intros fs.
  exact (X7_located_file_declares_the_kind fs "apps" "Deployment"
           "pkg/apis/apps/types.go" eq_refl).
Defined.

(** X8: the file the locator returns is an expected file that exists, or a
    file of the broad search whose path holds neither [test] nor
    [generated]. *)
Theorem X8_located_file_is_expected_or_not_excluded (fs : filesystem)
    (api_group kind path : string) :
  find_struct_file fs api_group kind = Ok (Some path) ->
  (exists paths,
     expected_paths fs api_group = Ok paths
     /\ In path paths /\ path_exists fs path = true)
  \/ (exists api_dir,
        In api_dir api_dirs /\ In path (glob_go fs api_dir)
        /\ contains "test" path = false
        /\ contains "generated" path = false).
Proof.
  unfold find_struct_file. intros H.
  apply bind_ok_inv in H as (paths & He & H).
  apply bind_ok_inv in H as (found & Hp & H).
  destruct found as [q|].
  - injection H as <-. left. exists paths.
    destruct (probe_paths_found _ _ _ _ Hp) as (Hin & Hex & _). auto.
  - right. destruct (scan_dirs_found _ _ _ _ H) as (d & Hd & Hin & Ht & Hg & _).
    exists d. auto.
Qed.

Lemma X8_located_file_is_expected_or_not_excluded_witness :
  let fs :=
    mkFS (fun _ => Ok []) (fun _ => false) (fun _ => false)
         (fun _ => Ok "type Deployment struct { Spec DeploymentSpec }")
         (fun d => if String.eqb d "pkg/apis"
                   then ["pkg/apis/apps/types_test.go";
                         "pkg/apis/apps/types.go"]
                   else []) in
  find_struct_file fs "apps" "Deployment" = Ok (Some "pkg/apis/apps/types.go")
  /\ ((exists paths,
         expected_paths fs "apps" = Ok paths
         /\ In "pkg/apis/apps/types.go" paths
         /\ path_exists fs "pkg/apis/apps/types.go" = true)
      \/ (exists api_dir,
            In api_dir api_dirs
            /\ In "pkg/apis/apps/types.go" (glob_go fs api_dir)
            /\ contains "test" "pkg/apis/apps/types.go" = false
            /\ contains "generated" "pkg/apis/apps/types.go" = false)).
Proof.
  intros fs. split; [reflexivity|].
  exact (X8_located_file_is_expected_or_not_excluded fs "apps" "Deployment"
           "pkg/apis/apps/types.go" eq_refl).
Defined.

Lemma probe_paths_none (fs : filesystem) (kind : string)
    (paths : list string) :
  probe_paths fs kind paths = Ok None ->
  forall p content,
    In p paths -> path_exists fs p = true -> read_text fs p = Ok content ->
    declares kind content = false.
Proof.
  induction paths as [|q paths IH]; simpl; [intros _ p content []|].
  intros H p content [<-|Hin] Hex Hr.
  - rewrite Hex, Hr in H. cbn [bind] in H.
    destruct (declares kind content); [discriminate | reflexivity].
  - apply (IH) with (p := p); try assumption.
    destruct (path_exists fs q); [|exact H].
    destruct (read_text fs q) as [c|e]; cbn [bind] in H; [|discriminate].
    destruct (declares kind c); [discriminate | exact H].
Qed.

Lemma scan_files_none (fs : filesystem) (kind : string)
    (files : list string) :
  scan_files fs kind files = Ok None ->
  forall f content,
    In f files ->
    contains "test" f || contains "generated" f = false ->
    read_text fs f = Ok content ->
    declares kind content = false.
Proof.
  induction files as [|q files IH]; simpl; [intros _ f content []|].
  intros H f content [<-|Hin] Hx Hr.
  - rewrite Hx, Hr in H.
    destruct (declares kind content); [discriminate | reflexivity].
  - apply (IH) with (f := f); try assumption.
    destruct (contains "test" q || contains "generated" q); [exact H|].
    destruct (read_text fs q) as [c|e].
    + destruct (declares kind c); [discriminate | exact H].
    + destruct e; try discriminate. exact H.
Qed.

Lemma scan_dirs_none (fs : filesystem) (kind : string) (dirs : list string) :
  scan_dirs fs kind dirs = Ok None ->
  forall d f content,
    In d dirs -> In f (glob_go fs d) ->
    contains "test" f || contains "generated" f = false ->
    read_text fs f = Ok content ->
    declares kind content = false.
Proof.
  induction dirs as [|q dirs IH]; simpl; [intros _ d f content []|].
  intros H d f content Hd Hin Hx Hr.
  destruct (scan_files fs kind (glob_go fs q)) as [[p|]|e] eqn:Hs;
    cbn [bind] in H; try discriminate.
  destruct Hd as [<-|Hd].
  - exact (scan_files_none _ _ _ Hs f content Hin Hx Hr).
  - exact (IH H d f content Hd Hin Hx Hr).
Qed.

(** X9: when the locator reports not-found, no expected file that exists
    and no file of the broad search outside the excluded ones was read
    with a struct of the requested name in it. *)
Theorem X9_not_found_means_no_candidate_declares (fs : filesystem)
    (api_group kind : string) :
  find_struct_file fs api_group kind = Ok None ->
  (forall paths p content,
     expected_paths fs api_group = Ok paths -> In p paths ->
     path_exists fs p = true -> read_text fs p = Ok content ->
     declares kind content = false)
  /\ (forall api_dir f content,
        In api_dir api_dirs -> In f (glob_go fs api_dir) ->
        contains "test" f || contains "generated" f = false ->
        read_text fs f = Ok content ->
        declares kind content = false).
Proof.
  unfold find_struct_file. intros H.
  apply bind_ok_inv in H as (paths & He & H).
  apply bind_ok_inv in H as (found & Hp & H).
  destruct found as [q|]; [discriminate|]. split.
  - intros paths' p content He'. rewrite He in He'. injection He' as <-.
    exact (probe_paths_none _ _ _ Hp p content).
  - exact (scan_dirs_none _ _ _ H).
Qed.

Lemma X9_not_found_means_no_candidate_declares_witness :
  let fs :=
    mkFS (fun _ => Ok []) (fun _ => false) (fun _ => false)
         (fun _ => Ok "type Pod struct { Spec PodSpec }")
         (fun d => if String.eqb d "pkg/apis" then ["pkg/apis/apps/types.go"]
                   else []) in
  declares "Deployment" "type Pod struct { Spec PodSpec }" = false.
Proof.
  intros fs.
  exact (proj2 (X9_not_found_means_no_candidate_declares fs "apps"
                  "Deployment" eq_refl)
           "pkg/apis" "pkg/apis/apps/types.go" _ (or_introl eq_refl)
           (or_introl eq_refl) eq_refl eq_refl).
Defined.

(** *** The rows of a run *)

Lemma extract_struct_fields_well_formed (fs : filesystem)
    (file_path struct_name : string) (found : list FieldRecord) :
  extract_struct_fields fs file_path struct_name = Ok found ->
  Forall well_formed found.
Proof.
  unfold extract_struct_fields.
  destruct (negb (path_exists fs file_path)); [intros [= <-]; constructor|].
  intros H. apply bind_ok_inv in H as (content & _ & H).
  exact (extract_from_content_well_formed _ _ _ H).
Qed.

Lemma item_rows_framed (fs : filesystem) (item : string * string) :
  framed (item_rows fs item).
Proof.
  intros rows. unfold item_rows. destruct item as [g k].
  destruct (find_struct_file fs g k) as [[file|]|e]; cbn [bind];
    [| now rewrite app_nil_r | reflexivity].
  destruct (is_empty file); [cbn [bind]; now rewrite app_nil_r|].
  destruct (extract_struct_fields fs file k); cbn [bind]; reflexivity.
Qed.

Lemma run_each_app {A S : Type} (xs ys : list A) (s : S)
    (body : A -> S -> result S) :
  run_each (xs ++ ys) s body
  = match run_each xs s body with
    | Finished s' => run_each ys s' body
    | Stopped s' e => Stopped s' e
    end.
Proof.
  revert s. induction xs as [|x xs IH]; intros s; cbn [app run_each].
  - reflexivity.
  - destruct (body x s) as [s1|e]; [apply IH | reflexivity].
Qed.

(** A run of steps that only append keeps what it is given in front. *)
Lemma run_each_framed {A R : Type} (xs : list A)
    (body : A -> list R -> result (list R)) (acc : list R) :
  (forall y, framed (body y)) ->
  run_each xs acc body
  = match run_each xs [] body with
    | Finished added => Finished (acc ++ added)%list
    | Stopped added e => Stopped (acc ++ added)%list e
    end.
Proof.
  intros Hbody. revert acc. induction xs as [|x xs IH]; intros acc;
    cbn [run_each].
  - now rewrite app_nil_r.
  - rewrite (Hbody x acc).
    destruct (body x []) as [a1|e]; cbn [bind]; [|now rewrite app_nil_r].
    rewrite (IH (acc ++ a1)%list), (IH a1).
    destruct (run_each xs [] body) as [a2|a2 e]; now rewrite app_assoc.
Qed.

(** What a run has reached was given to it or added by one of its steps,
    whether the run finished or not. *)
Lemma run_each_reached {A R : Type} (xs : list A)
    (body : A -> list R -> result (list R)) (acc : list R) (r : R) :
  (forall y, framed (body y)) ->
  In r (reached (run_each xs acc body)) ->
  In r acc
  \/ exists x added, In x xs /\ body x [] = Ok added /\ In r added.
Proof.
  intros Hbody. revert acc. induction xs as [|y xs IH]; intros acc;
    cbn [run_each].
  - intros Hr. left; exact Hr.
  - destruct (body y acc) as [mid|e] eqn:Hy; [|intros Hr; left; exact Hr].
    intros Hr. destruct (IH mid Hr) as [Hmid|(x & added & Hx & Hb & Ha)].
    + destruct (ExtractOpenapiFieldsFacts.framed_extends _ _ _ (Hbody y) Hy)
        as (added & Hy0 & ->).
      apply in_app_or in Hmid as [Hacc|Hadd]; [left; exact Hacc|].
      right. exists y, added. split; [left; reflexivity | auto].
    + right. exists x, added. split; [right; exact Hx | auto].
Qed.

(** X10: every row a run has written, whether it reached the end of the
    inputs or stopped at an exception, has the seven columns of one
    well-formed field record, after the group and the kind of one of the
    inputs. *)
Theorem X10_rows_are_fields_of_the_inputs (fs : filesystem)
    (items : list (string * string)) (row : list string) :
  In row (reached (main_loop fs items)) ->
  exists api_group kind field,
    In (api_group, kind) items
    /\ row = row_of api_group kind field
    /\ well_formed field.
Proof.
  unfold main_loop. intros Hrow.
  destruct (run_each_reached items (item_rows fs) [] row (item_rows_framed fs)
              Hrow)
    as [[]|([g k] & added & Hitem & Hadd & Hin)].
  revert Hadd. unfold item_rows.
  destruct (find_struct_file fs g k) as [[file|]|e]; cbn [bind];
    [| intros [= <-]; destruct Hin | discriminate].
  destruct (is_empty file); [intros [= <-]; destruct Hin|].
  destruct (extract_struct_fields fs file k) as [found|e] eqn:Hf; cbn [bind];
    [|discriminate].
  intros [= <-]. cbn [app] in Hin. apply in_map_iff in Hin as (field & <- & Hfield).
  exists g, k, field. split; [exact Hitem|]. split; [reflexivity|].
  pose proof (extract_struct_fields_well_formed _ _ _ _ Hf) as F.
  rewrite Forall_forall in F. exact (F _ Hfield).
Qed.

Lemma X10_rows_are_fields_of_the_inputs_witness :
  let fs :=
    mkFS (fun _ => Raise OSError) (fun _ => true) (fun _ => false)
         (fun _ => Ok "type Pod struct { Spec PodSpec }")
         (fun _ => []) in
  main_loop fs [("", "Pod"); ("apps", "Deployment"); ("", "Pod")]
  = Stopped [[""; "Pod"; "Spec"; "PodSpec"; ""; "false"; ""]] OSError
  /\ exists api_group kind field,
       In (api_group, kind) [("", "Pod"); ("apps", "Deployment"); ("", "Pod")]
       /\ [""; "Pod"; "Spec"; "PodSpec"; ""; "false"; ""]
          = row_of api_group kind field
       /\ well_formed field.
Proof.
  intros fs. split; [reflexivity|].
  exact (X10_rows_are_fields_of_the_inputs fs
           [("", "Pod"); ("apps", "Deployment"); ("", "Pod")]
           [""; "Pod"; "Spec"; "PodSpec"; ""; "false"; ""]
           (or_introl eq_refl)).
Defined.

(** X11: the rows written for a batch are the rows written for its first
    part followed, when the first part reaches its end, by the rows
    written for the rest; a part that stops at an exception stops the run
    there, with the rows written until then in the file. *)
Theorem X11_rows_of_a_batch_concatenate (fs : filesystem)
    (first rest : list (string * string)) :
  main_loop fs (first ++ rest)
  = match main_loop fs first with
    | Finished rows =>
        match main_loop fs rest with
        | Finished rows' => Finished (rows ++ rows')%list
        | Stopped rows' e => Stopped (rows ++ rows')%list e
        end
    | Stopped rows e => Stopped rows e
    end.
Proof.
  unfold main_loop. rewrite run_each_app.
  destruct (run_each first [] (item_rows fs)) as [rows|rows e]; [|reflexivity].
  exact (run_each_framed rest (item_rows fs) rows (item_rows_framed fs)).
Qed.

(** A run that reaches the end of the inputs is the loop that returns. *)
Lemma run_each_finished {A S : Type} (xs : list A) (s s' : S)
    (body : A -> S -> result S) :
  run_each xs s body = Finished s' <-> for_each xs s body = Ok s'.
Proof.
  revert s. induction xs as [|x xs IH]; intros s; cbn [run_each for_each].
  - split; intros [= <-]; reflexivity.
  - destruct (body x s) as [s1|e]; cbn [bind]; [apply IH|].
    split; discriminate.
Qed.

End ExtractFieldsMore.

(** ** The schema walk and its driver, beyond the claims *)

Module ExtractOpenapiFieldsMore.
Import PyStr ExtractOpenapiFields PyStrFacts ExtractOpenapiFieldsFacts.

Lemma contains_separator (sep : ascii) (p n : string) :
  contains (String sep EmptyString) (p ++ String sep n) = true.
Proof.
  induction p as [|c p IH]; cbn [append]; rewrite contains_char_cons.
  - now rewrite Ascii.eqb_refl.
  - rewrite IH. apply orb_true_r.
Qed.

Section WalkerMore.

Variable py_str : json -> string.
Variables api_group kind : string.

Local Abbreviation walk := (get_fields_from_schema py_str api_group kind).
Local Abbreviation record_of := (property_record py_str api_group kind).
Local Abbreviation process := (process_property py_str api_group kind).

(** X12: the walk only appends: the records it is given stay in front,
    in place, and the records it adds are those it adds to the empty list;
    when it raises, it raises whatever list it is given. *)
Theorem X12_walk_only_appends (limit : nat) (schema : json) (path : string)
    (fields : list FieldRecord) :
  walk limit schema path fields
  = (added <- walk limit schema path [] ;; Ok (fields ++ added)%list).
Proof. exact (walk_framed py_str api_group kind limit schema path fields). Qed.

(** The shape of the record of a property. *)
Lemma record_shape (schema : json) (path n : string) (d : json)
    (r : FieldRecord) :
  record_of schema path n d = Ok r ->
  APIGroup r = api_group /\ Kind r = kind
  /\ (Optional r = "true" \/ Optional r = "false")
  /\ JSONTag r = n /\ Field r = join_path path n.
Proof.
  intros H.
  destruct (record_fields _ _ _ _ _ _ _ _ H) as (ds & rq & ty & _ & _ & _ & ->).
  cbn. repeat split. destruct rq; auto.
Qed.

Lemma join_path_cases (path n : string) :
  join_path path n = n \/ join_path path n = path ++ "." ++ n.
Proof. unfold join_path. destruct (is_empty path); auto. Qed.

Lemma added_record_shape (limit : nat) (root : json) (prefix : string)
    (out : list FieldRecord) (r : FieldRecord) :
  walk limit root prefix [] = Ok out ->
  In r out ->
  APIGroup r = api_group /\ Kind r = kind
  /\ (Optional r = "true" \/ Optional r = "false")
  /\ (Field r = JSONTag r \/ exists p, Field r = p ++ "." ++ JSONTag r)
  /\ Field r <> "apiVersion" /\ Field r <> "kind".
Proof.
  intros H Hr.
  destruct (emitted_records_are_property_records _ _ _ _ _ _ _ _ _ H Hr)
    as [[]|(schema & path & props & n & d & _ & _ & _ & Hskip & Hrec)].
  destruct (record_shape _ _ _ _ _ Hrec) as (Hg & Hk & Ho & Ht & Hf).
  split; [exact Hg|]. split; [exact Hk|]. split; [exact Ho|].
  rewrite Hf, Ht. split.
  - destruct (join_path_cases path n) as [->| ->]; [left|right]; eauto.
  - unfold join_path. destruct path as [|c path]; cbn [is_empty].
    + rewrite andb_true_r in Hskip. unfold is_envelope in Hskip.
      apply orb_false_elim in Hskip as [Ha Hk'].
      split; intros ->; discriminate.
    + assert (contains "." (String c path ++ "." ++ n) = true) as Hdot
        by apply contains_separator.
      split; intros E; rewrite E in Hdot; discriminate.
Qed.

(** X13: every record the walk adds carries the group and the kind the
    walk was called with, an ['Optional'] that is ["true"] or ["false"],
    and a path that is its tag or ends with a dot and its tag. *)
Theorem X13_added_records_are_stamped (limit : nat) (root : json)
    (prefix : string) (out : list FieldRecord) (r : FieldRecord) :
  walk limit root prefix [] = Ok out ->
  In r out ->
  APIGroup r = api_group /\ Kind r = kind
  /\ (Optional r = "true" \/ Optional r = "false")
  /\ (Field r = JSONTag r \/ exists p, Field r = p ++ "." ++ JSONTag r).
Proof.
  intros H Hr.
  destruct (added_record_shape _ _ _ _ _ H Hr) as (Hg & Hk & Ho & Hf & _).
  auto.
Qed.

(** X14: no record the walk adds has the path [apiVersion] or [kind],
    whatever the prefix the walk starts from. *)
Theorem X14_no_record_at_the_envelope_paths (limit : nat) (root : json)
    (prefix : string) (out : list FieldRecord) (r : FieldRecord) :
  walk limit root prefix [] = Ok out ->
  In r out ->
  Field r <> "apiVersion" /\ Field r <> "kind".
Proof.
  intros H Hr.
  destruct (added_record_shape _ _ _ _ _ H Hr) as (_ & _ & _ & _ & Hf).
  exact Hf.
Qed.

(** X15: every record the walk adds is the record of a property it did
    not skip, at a level it reached from the root through [properties],
    [allOf] members or [items]: nothing else is emitted. *)
Theorem X15_records_come_from_visited_properties (limit : nat) (root : json)
    (prefix : string) (acc out : list FieldRecord) (r : FieldRecord) :
  walk limit root prefix acc = Ok out ->
  In r out ->
  In r acc
  \/ exists schema path props n d,
       visits root prefix schema path
       /\ py_get schema "properties" (JObj []) = Ok (JObj props)
       /\ In (n, d) props
       /\ is_envelope n && String.eqb path "" = false
       /\ record_of schema path n d = Ok r.
Proof.
  exact (emitted_records_are_property_records py_str api_group kind limit root
           prefix acc out r).
Qed.

(** X16: the walk ends on every document: with a limit above the depth of
    the schema it returns its records or raises what a lookup raises,
    never [RecursionError]. *)
Theorem X16_walk_ends_within_the_depth (limit : nat) (schema : json)
    (path : string) (fields : list FieldRecord) :
  depth schema < limit ->
  walk limit schema path fields <> Raise RecursionError.
Proof.
  exact (limit_above_depth_is_enough py_str api_group kind limit schema path
           fields).
Qed.

(** X17: a result other than [RecursionError] does not depend on the
    limit: every higher limit gives the same records or the same
    exception. *)
Theorem X17_result_does_not_depend_on_the_limit (limit limit' : nat)
    (schema : json) (path : string) (fields : list FieldRecord)
    (r : result (list FieldRecord)) :
  walk limit schema path fields = r ->
  r <> Raise RecursionError ->
  limit <= limit' ->
  walk limit' schema path fields = r.
Proof.
  exact (limit_not_hit_is_irrelevant py_str api_group kind limit limit' schema
           path fields r).
Qed.

(** X18: a [$ref] decides the type alone: a property with a string
    [$ref] is emitted with the final segment of the reference as type,
    whatever its [allOf], [type] and [items] say. *)
Theorem X18_ref_decides_the_type (limit : nat) (root : json) (prefix : string)
    (acc out : list FieldRecord) (schema : json) (path : string)
    (props : list (string * json)) (n : string) (dm : list (string * json))
    (ref : string) :
  walk limit root prefix acc = Ok out ->
  visits root prefix schema path ->
  py_get schema "properties" (JObj []) = Ok (JObj props) ->
  In (n, JObj dm) props ->
  is_envelope n && String.eqb path "" = false ->
  lookup "$ref" dm = Some (JStr ref) ->
  exists r,
    In r out /\ Field r = join_path path n
    /\ Type_ r = JStr (final_segment ref).
Proof.
  intros H Hv Hprops Hin Hskip Href.
  destruct (visited_property_emitted _ _ _ _ _ _ _ _ _ _ _ _ _ H Hv Hprops Hin
              Hskip) as (r & Hr & Hout).
  destruct (record_fields _ _ _ _ _ _ _ _ Hr)
    as (ds & rq & ty & _ & _ & Hty & ->).
  eexists. split; [exact Hout|]. cbn [Field Type_]. split; [reflexivity|].
  revert Hty. unfold field_type_of. cbn [py_in bind]. rewrite Href.
  cbn [bind py_getitem]. rewrite Href. cbn [bind].
  rewrite ref_name_final_segment. congruence.
Qed.

(** X19: the properties of the [items] of an array property are walked
    at the path of the property followed by [[]]: a property [q] of the
    items has a record at that path, a dot and [q]. *)
Theorem X19_items_are_walked_under_brackets (limit : nat) (root : json)
    (prefix : string) (acc out : list FieldRecord) (schema : json)
    (path : string) (props : list (string * json)) (n : string)
    (dm im iprops : list (string * json)) (q : string) (qd : json) :
  walk limit root prefix acc = Ok out ->
  visits root prefix schema path ->
  py_get schema "properties" (JObj []) = Ok (JObj props) ->
  In (n, JObj dm) props ->
  is_envelope n && String.eqb path "" = false ->
  lookup "properties" dm = None ->
  lookup "allOf" dm = None ->
  lookup "items" dm = Some (JObj im) ->
  lookup "properties" im = Some (JObj iprops) ->
  In (q, qd) iprops ->
  exists r,
    In r out /\ JSONTag r = q
    /\ Field r = (join_path path n ++ "[]") ++ "." ++ q.
Proof.
  intros H Hv Hprops Hin Hskip Hnp Hna Hitems Hip Hq.
  assert (visits root prefix (JObj im) (join_path path n ++ "[]")) as Hv'.
  { apply (visits_deeper _ _ _ _ _ _ Hv).
    apply (calls_items _ _ props n (JObj dm) (JObj im)); try assumption.
    - cbn. now rewrite Hnp.
    - cbn. now rewrite Hna.
    - unfold items_have_properties. cbn. rewrite Hitems. cbn. now rewrite Hip.
    - cbn. now rewrite Hitems. }
  assert (join_path path n ++ "[]" <> EmptyString) as Hne
    by apply append_nonempty.
  destruct (visited_property_emitted _ _ _ _ _ _ _ _ _ _ iprops q qd H Hv')
    as (r & Hr & Hout).
  { cbn. now rewrite Hip. }
  { exact Hq. }
  { apply not_skipped_below, Hne. }
  destruct (record_fields _ _ _ _ _ _ _ _ Hr) as (ds & rq & ty & _ & _ & _ & ->).
  eexists. split; [exact Hout|]. cbn [Field JSONTag]. split; [reflexivity|].
  apply join_path_nonempty, Hne.
Qed.

(** X20: a walk that returns has found an object under every property it
    did not skip, at every level it reached: a property whose value is a
    string, a list, a number or null is not passed over, it makes the
    whole walk raise. *)
Theorem X20_every_walked_property_is_an_object (limit : nat) (root : json)
    (prefix : string) (acc out : list FieldRecord) (schema : json)
    (path : string) (props : list (string * json)) (n : string) (d : json) :
  walk limit root prefix acc = Ok out ->
  visits root prefix schema path ->
  py_get schema "properties" (JObj []) = Ok (JObj props) ->
  In (n, d) props ->
  is_envelope n && String.eqb path "" = false ->
  exists dm, d = JObj dm.
Proof.
  intros H Hv Hprops Hin Hskip.
  destruct (visited_property_emitted _ _ _ _ _ _ _ _ _ _ _ _ _ H Hv Hprops Hin
              Hskip) as (r & Hr & _).
  destruct (record_fields _ _ _ _ _ _ _ _ Hr) as (ds & _ & _ & Hd & _).
  destruct d; try discriminate. eauto.
Qed.

End WalkerMore.

Lemma X13_added_records_are_stamped_witness :
  APIGroup (mkField "apps" "Deployment" "spec.replicas" (JStr "integer")
              "replicas" "true" (JStr "")) = "apps"
  /\ Kind (mkField "apps" "Deployment" "spec.replicas" (JStr "integer")
             "replicas" "true" (JStr "")) = "Deployment".
Proof.
  destruct (X13_added_records_are_stamped (fun _ => "") "apps" "Deployment" 2
              (JObj [("properties",
                      JObj [("spec",
                             JObj [("properties",
                                    JObj [("replicas",
                                           JObj [("type",
                                                  JStr "integer")])])])])])
              "" _
              (mkField "apps" "Deployment" "spec.replicas" (JStr "integer")
                 "replicas" "true" (JStr ""))
              eq_refl (or_intror (or_introl eq_refl)))
    as (Hg & Hk & _).
  split; [exact Hg | exact Hk].
Defined.

Lemma X14_no_record_at_the_envelope_paths_witness :
  Field (mkField "apps" "Deployment" "spec.kind" (JStr "string") "kind"
           "true" (JStr "")) <> "kind".
Proof.
  exact (proj2
    (X14_no_record_at_the_envelope_paths (fun _ => "") "apps" "Deployment" 2
       (JObj [("properties",
               JObj [("kind", JObj [("type", JStr "string")]);
                     ("spec",
                      JObj [("properties",
                             JObj [("kind",
                                    JObj [("type", JStr "string")])])])])])
       "" _
       (mkField "apps" "Deployment" "spec.kind" (JStr "string") "kind" "true"
          (JStr ""))
       eq_refl (or_intror (or_introl eq_refl)))).
Defined.

Lemma X15_records_come_from_visited_properties_witness :
  let root := JObj [("properties", JObj [("a", JObj [("type", JStr "string")])])] in
  let r := mkField "apps" "Deployment" "a" (JStr "string") "a" "true" (JStr "") in
  In r []
  \/ exists schema path props n d,
       visits root "" schema path
       /\ py_get schema "properties" (JObj []) = Ok (JObj props)
       /\ In (n, d) props
       /\ is_envelope n && String.eqb path "" = false
       /\ property_record (fun _ => "") "apps" "Deployment" schema path n d
          = Ok r.
Proof.
  intros root r.
  exact (X15_records_come_from_visited_properties (fun _ => "") "apps"
           "Deployment" 1 root "" [] [r] r eq_refl (or_introl eq_refl)).
Defined.

Lemma X16_walk_ends_within_the_depth_witness :
  get_fields_from_schema (fun _ => "") "apps" "Deployment" 4
    (JObj [("properties", JObj [("a", JObj [("type", JStr "string")])])])
    "" []
  <> Raise RecursionError.
Proof.
  apply (X16_walk_ends_within_the_depth (fun _ => "") "apps" "Deployment" 4).
  cbn. lia.
Defined.

Lemma X17_result_does_not_depend_on_the_limit_witness :
  get_fields_from_schema (fun _ => "") "apps" "Deployment" 1000
    (JObj [("properties", JObj [("a", JObj [("type", JStr "string")])])])
    "" []
  = Ok [mkField "apps" "Deployment" "a" (JStr "string") "a" "true" (JStr "")].
Proof.
  apply (X17_result_does_not_depend_on_the_limit (fun _ => "") "apps"
           "Deployment" 1 1000).
  - reflexivity.
  - discriminate.
  - lia.
Defined.

Lemma X18_ref_decides_the_type_witness :
  exists r,
    In r [mkField "apps" "Deployment" "meta" (JStr "ObjectMeta") "meta" "true"
            (JStr "")]
    /\ Field r = "meta" /\ Type_ r = JStr "ObjectMeta".
Proof.
  exact (X18_ref_decides_the_type (fun _ => "") "apps" "Deployment" 1
           (JObj [("properties",
                   JObj [("meta",
                          JObj [("type", JStr "object");
                                ("$ref",
                                 JStr "#/components/schemas/ObjectMeta")])])])
           "" [] _ _ "" _ "meta" _ "#/components/schemas/ObjectMeta"
           eq_refl (visits_here _ _) eq_refl (or_introl eq_refl) eq_refl
           eq_refl).
Defined.

Lemma X19_items_are_walked_under_brackets_witness :
  exists r,
    In r [mkField "apps" "Deployment" "ports" (JStr "array of object") "ports"
            "true" (JStr "");
          mkField "apps" "Deployment" "ports[].name" (JStr "string") "name"
            "true" (JStr "")]
    /\ JSONTag r = "name" /\ Field r = "ports[].name".
Proof.
  exact (X19_items_are_walked_under_brackets (fun _ => "") "apps" "Deployment"
           2
           (JObj [("properties",
                   JObj [("ports",
                          JObj [("type", JStr "array");
                                ("items",
                                 JObj [("type", JStr "object");
                                       ("properties",
                                        JObj [("name",
                                               JObj [("type",
                                                      JStr "string")])])])])])])
           "" [] _ _ "" _ "ports" _ _ _ "name" (JObj [("type", JStr "string")])
           eq_refl (visits_here _ _) eq_refl (or_introl eq_refl) eq_refl
           eq_refl eq_refl eq_refl eq_refl (or_introl eq_refl)).
Defined.

Lemma X20_every_walked_property_is_an_object_witness :
  exists dm, JObj [("type", JStr "string")] = JObj dm.
Proof.
  exact (X20_every_walked_property_is_an_object (fun _ => "") "apps"
           "Deployment" 1
           (JObj [("properties", JObj [("a", JObj [("type", JStr "string")])])])
           "" [] _ _ "" _ "a" _
           eq_refl (visits_here _ _) eq_refl (or_introl eq_refl) eq_refl).
Defined.

(** *** Finding the schema *)

Lemma read_schema_truthy (files : openapi_files) (schema_id file : string)
    (schema : json) :
  read_schema files schema_id file = Ok schema ->
  truthy schema = true ->
  exists dm cm sm,
    load_json files file = Ok (JObj dm)
    /\ lookup "components" dm = Some (JObj cm)
    /\ lookup "schemas" cm = Some (JObj sm)
    /\ lookup schema_id sm = Some schema.
Proof.
  unfold read_schema. intros H Ht.
  apply bind_ok_inv in H as (data & Hload & H).
  apply bind_ok_inv in H as (components & Hc & H).
  apply bind_ok_inv in H as (schemas & Hs & H).
  destruct data as [| | | | | |dm]; try discriminate. cbn [py_get] in Hc.
  destruct components as [| | | | | |cm]; try discriminate. cbn [py_get] in Hs.
  destruct schemas as [| | | | | |sm]; try discriminate. cbn [py_get] in H.
  destruct (lookup schema_id sm) as [v|] eqn:Hid;
    [|injection H as <-; discriminate].
  injection H as ->.
  destruct (lookup "schemas" cm) as [v|] eqn:Hsch.
  - injection Hs as ->.
    destruct (lookup "components" dm) as [v|] eqn:Hcomp.
    + injection Hc as ->. exists dm, cm, sm. auto.
    + injection Hc as <-. discriminate.
  - injection Hs as <-. discriminate.
Qed.

Lemma read_schema_present (files : openapi_files) (schema_id file : string)
    (dm cm sm : list (string * json)) (schema : json) :
  load_json files file = Ok (JObj dm) ->
  lookup "components" dm = Some (JObj cm) ->
  lookup "schemas" cm = Some (JObj sm) ->
  lookup schema_id sm = Some schema ->
  read_schema files schema_id file = Ok schema.
Proof.
  intros Hl Hc Hs Hi. unfold read_schema. rewrite Hl. cbn [bind py_get].
  rewrite Hc. cbn [bind py_get]. rewrite Hs. cbn [bind py_get].
  now rewrite Hi.
Qed.

Lemma first_schema_found (files : openapi_files) (schema_id : string)
    (paths : list string) (schema : json) :
  first_schema files schema_id paths = Some schema ->
  exists before file after,
    paths = (before ++ file :: after)%list
    /\ read_schema files schema_id file = Ok schema
    /\ truthy schema = true
    /\ forall f s, In f before -> read_schema files schema_id f = Ok s ->
                   truthy s = false.
Proof.
  induction paths as [|p paths IH]; cbn [first_schema]; [discriminate|].
  assert (first_schema files schema_id paths = Some schema ->
          (forall s, read_schema files schema_id p = Ok s -> truthy s = false) ->
          exists before file after,
            (p :: paths = before ++ file :: after)%list
            /\ read_schema files schema_id file = Ok schema
            /\ truthy schema = true
            /\ forall f s, In f before ->
                  read_schema files schema_id f = Ok s -> truthy s = false)
    as Hrest.
  { intros H Hp. destruct (IH H) as (before & file & after & -> & Hr & Ht & Hb).
    exists (p :: before), file, after. split; [reflexivity|].
    split; [exact Hr|]. split; [exact Ht|].
    intros f s [<-|Hf]; [apply Hp | apply Hb, Hf]. }
  destruct (read_schema files schema_id p) as [s|e] eqn:Hr.
  - destruct (truthy s) eqn:Ht.
    + intros [= <-]. exists [], p, paths. split; [reflexivity|].
      split; [exact Hr|]. split; [exact Ht|]. intros f s' [].
    + intros H. apply (Hrest H). intros s' [= <-]. exact Ht.
  - intros H. apply (Hrest H). discriminate.
Qed.

Lemma first_schema_none (files : openapi_files) (schema_id : string)
    (paths : list string) :
  first_schema files schema_id paths = None ->
  forall f s, In f paths -> read_schema files schema_id f = Ok s ->
              truthy s = false.
Proof.
  induction paths as [|p paths IH]; cbn [first_schema]; [intros _ f s []|].
  intros H f s [<-|Hf] Hr.
  - rewrite Hr in H. destruct (truthy s); [discriminate | reflexivity].
  - apply (IH) with (f := f); try assumption.
    destruct (read_schema files schema_id p) as [s'|e]; [|exact H].
    destruct (truthy s'); [discriminate | exact H].
Qed.

(** X21: the schema returned for a kind is not empty and stands under
    [components], [schemas] and the identifier of the kind in a matching
    file that loads; it is taken from the first matching file that has
    such a schema. *)
Theorem X21_schema_comes_from_first_file_that_has_it (files : openapi_files)
    (api_group kind version : string) (schema : json) :
  get_resource_schema files api_group kind version = Some schema ->
  truthy schema = true
  /\ exists before file after dm cm sm,
       matching_files files api_group version = (before ++ file :: after)%list
       /\ load_json files file = Ok (JObj dm)
       /\ lookup "components" dm = Some (JObj cm)
       /\ lookup "schemas" cm = Some (JObj sm)
       /\ lookup (schema_id_of api_group kind version) sm = Some schema
       /\ forall f s,
            In f before ->
            read_schema files (schema_id_of api_group kind version) f = Ok s ->
            truthy s = false.
Proof.
  unfold get_resource_schema. intros H.
  destruct (first_schema_found _ _ _ _ H)
    as (before & file & after & Hm & Hr & Ht & Hb).
  split; [exact Ht|].
  destruct (read_schema_truthy _ _ _ _ Hr Ht) as (dm & cm & sm & Hl & Hc & Hs & Hi).
  exists before, file, after, dm, cm, sm. auto 10.
Qed.

(** X22: when no schema is returned, no matching file that loads has a
    schema that is not empty under the identifier of the kind. *)
Theorem X22_no_schema_means_no_file_has_it (files : openapi_files)
    (api_group kind version : string) :
  get_resource_schema files api_group kind version = None ->
  forall file dm cm sm schema,
    In file (matching_files files api_group version) ->
    load_json files file = Ok (JObj dm) ->
    lookup "components" dm = Some (JObj cm) ->
    lookup "schemas" cm = Some (JObj sm) ->
    lookup (schema_id_of api_group kind version) sm = Some schema ->
    truthy schema = false.
Proof.
  unfold get_resource_schema. intros H file dm cm sm schema Hin Hl Hc Hs Hi.
  apply (first_schema_none _ _ _ H file schema Hin).
  exact (read_schema_present _ _ _ _ _ _ _ Hl Hc Hs Hi).
Qed.

Lemma X21_schema_comes_from_first_file_that_has_it_witness :
  let schema :=
    JObj [("properties", JObj [("a", JObj [("type", JStr "string")])])] in
  let files :=
    mkFiles
      (fun pattern =>
         if String.eqb pattern
              "api/openapi-spec/v3/apis__apps__v1_openapi.json"
         then ["broken.json"; "apps.json"] else [])
      (fun file =>
         if String.eqb file "broken.json" then Raise OSError
         else Ok (JObj [("components",
                         JObj [("schemas",
                                JObj [("io.k8s.api.apps.v1.Deployment",
                                       schema)])])])) in
  get_resource_schema files "apps" "Deployment" "v1" = Some schema
  /\ truthy schema = true.
Proof.
  intros schema files. split; [reflexivity|].
  exact (proj1 (X21_schema_comes_from_first_file_that_has_it files "apps"
                  "Deployment" "v1" schema eq_refl)).
Defined.

Lemma X22_no_schema_means_no_file_has_it_witness :
  let files :=
    mkFiles
      (fun pattern =>
         if String.eqb pattern
              "api/openapi-spec/v3/apis__apps__v1_openapi.json"
         then ["apps.json"] else [])
      (fun _ =>
         Ok (JObj [("components",
                    JObj [("schemas",
                           JObj [("io.k8s.api.apps.v1.Deployment",
                                  JObj [])])])])) in
  get_resource_schema files "apps" "Deployment" "v1" = None
  /\ truthy (JObj []) = false.
Proof.
  intros files. split; [reflexivity|].
  exact (X22_no_schema_means_no_file_has_it files "apps" "Deployment" "v1"
           eq_refl "apps.json" _ _ _ (JObj []) (or_introl eq_refl) eq_refl
           eq_refl eq_refl eq_refl).
Defined.

(** *** The records of a run *)

Section DriverMore.

Variable py_str : json -> string.

Lemma item_fields_framed (files : openapi_files) (limit : nat)
    (item : table_row) :
  framed (item_fields py_str files limit item).
Proof.
  intros all. unfold item_fields.
  destruct (get_resource_schema files _ _ _) as [schema|];
    [|cbn [bind]; now rewrite app_nil_r].
  destruct (truthy schema); [|cbn [bind]; now rewrite app_nil_r].
  destruct (get_fields_from_schema _ _ _ _ _ _ _); reflexivity.
Qed.

(** X23: every record of a run is a record of the walk of the schema
    found for one of the input rows: it carries the group and the kind of
    that row, and its path is neither [apiVersion] nor [kind]. *)
Theorem X23_records_belong_to_the_input_rows (files : openapi_files)
    (limit : nat) (items : list table_row) (all_fields : list FieldRecord)
    (r : FieldRecord) :
  main_fields py_str files limit items = Ok all_fields ->
  In r all_fields ->
  exists item schema found,
    In item items
    /\ get_resource_schema files (row_group item) (row_kind item)
         (match row_version item with Some v => v | None => "v1" end)
       = Some schema
    /\ get_fields_from_schema py_str (row_group item) (row_kind item) limit
         schema "" [] = Ok found
    /\ In r found
    /\ APIGroup r = row_group item /\ Kind r = row_kind item
    /\ Field r <> "apiVersion" /\ Field r <> "kind".
Proof.
  unfold main_fields. intros H Hr.
  destruct (for_each_out items _ [] all_fields r
              (item_fields_framed files limit) H Hr)
    as [[]|(item & added & Hitem & Hadd & Hin)].
  revert Hadd. unfold item_fields.
  destruct (get_resource_schema files _ _ _) as [schema|] eqn:Hs;
    [|intros [= <-]; destruct Hin].
  destruct (truthy schema); [|intros [= <-]; destruct Hin].
  destruct (get_fields_from_schema _ _ _ _ _ _ _) as [found|e] eqn:Hw;
    cbn [bind]; [|discriminate].
  intros [= <-]. cbn [app] in Hin.
  destruct (added_record_shape _ _ _ _ _ _ _ _ Hw Hin)
    as (Hg & Hk & _ & _ & Ha & Hk').
  exists item, schema, found. auto 10.
Qed.

(** X24: an exception of the walk is not handled by the run: when the
    rows before an input are processed and the walk of the schema found
    for that input raises, the run raises the same exception and the rows
    after it are not processed. *)
Theorem X24_walk_exception_ends_the_run (files : openapi_files) (limit : nat)
    (before after : list table_row) (item : table_row)
    (done : list FieldRecord) (schema : json) (e : exn) :
  main_fields py_str files limit before = Ok done ->
  get_resource_schema files (row_group item) (row_kind item)
    (match row_version item with Some v => v | None => "v1" end)
  = Some schema ->
  get_fields_from_schema py_str (row_group item) (row_kind item) limit schema
    "" [] = Raise e ->
  main_fields py_str files limit (before ++ item :: after) = Raise e.
Proof.
  unfold main_fields. intros Hb Hs Hw.
  rewrite for_each_app, Hb. cbn [bind for_each].
  unfold item_fields at 1. rewrite Hs.
  destruct (first_schema_found _ _ _ _ Hs) as (_ & _ & _ & _ & _ & -> & _).
  rewrite Hw. reflexivity.
Qed.

(** X25: the records of a batch of rows are the records of its first part
    followed by the records of the rest; the rows do not influence one
    another otherwise. *)
Theorem X25_records_of_a_batch_concatenate (files : openapi_files)
    (limit : nat) (first rest : list table_row) :
  main_fields py_str files limit (first ++ rest)
  = (found <- main_fields py_str files limit first ;;
     found' <- main_fields py_str files limit rest ;;
     Ok (found ++ found')%list).
Proof.
  unfold main_fields. rewrite for_each_app.
  destruct (for_each first [] (item_fields py_str files limit)) as [found|e];
    cbn [bind]; [|reflexivity].
  exact (for_each_framed rest _ (item_fields_framed files limit) found).
Qed.

End DriverMore.

Lemma X23_records_belong_to_the_input_rows_witness :
  let schema :=
    JObj [("properties", JObj [("a", JObj [("type", JStr "string")])])] in
  let files :=
    mkFiles
      (fun pattern =>
         if String.eqb pattern
              "api/openapi-spec/v3/apis__apps__v1_openapi.json"
         then ["apps.json"] else [])
      (fun _ =>
         Ok (JObj [("components",
                    JObj [("schemas",
                           JObj [("io.k8s.api.apps.v1.Deployment",
                                  schema)])])])) in
  let r := mkField "apps" "Deployment" "a" (JStr "string") "a" "true" (JStr "") in
  exists item,
    In item [mkRow "batch" "Job" None; mkRow "apps" "Deployment" None]
    /\ APIGroup r = row_group item /\ Kind r = row_kind item.
Proof.
  intros schema files r.
  destruct (X23_records_belong_to_the_input_rows (fun _ => "") files 3
              [mkRow "batch" "Job" None; mkRow "apps" "Deployment" None]
              [r] r eq_refl (or_introl eq_refl))
    as (item & _ & _ & Hitem & _ & _ & _ & Hg & Hk & _).
  exists item. auto.
Defined.

Lemma X24_walk_exception_ends_the_run_witness :
  let files :=
    mkFiles
      (fun pattern =>
         if String.eqb pattern
              "api/openapi-spec/v3/apis__apps__v1_openapi.json"
         then ["apps.json"] else [])
      (fun _ =>
         Ok (JObj [("components",
                    JObj [("schemas",
                           JObj [("io.k8s.api.apps.v1.Deployment",
                                  JObj [("properties",
                                         JObj [("a", JStr "string")])])])])])) in
  main_fields (fun _ => "") files 3
    ([mkRow "batch" "Job" None] ++ mkRow "apps" "Deployment" None
     :: [mkRow "batch" "CronJob" None])
  = Raise AttributeError.
Proof.
  intros files.
  exact (X24_walk_exception_ends_the_run (fun _ => "") files 3
           [mkRow "batch" "Job" None] [mkRow "batch" "CronJob" None]
           (mkRow "apps" "Deployment" None) []
           (JObj [("properties", JObj [("a", JStr "string")])])
           AttributeError eq_refl eq_refl eq_refl).
Defined.

End ExtractOpenapiFieldsMore.
